(** * Stratified resampling of a vector dataset (preprocessing/resampling.py)

    A shallow embedding of [filter_fields], [strip_shapefile],
    [resample_shapefile] and [resample_shapefile_spatially], together with
    the numpy / pandas / shapely operations these functions call; the last
    part of the model covers [lonlat_pixel_centres] and [validate_file] of
    scripts/addraster.py.

    Conventions of the embedding.
    - Python integers ([bins], [rows], [cols], [output_samples], quotas) are
      [Z]; [//] is floor division, which is [Z.div].
    - Attribute values and coordinates are exact rationals [Q]; a value a
      library may answer as NaN has type [float := option Q].  Rounding of
      IEEE doubles is not modelled.
    - Every geometry is a point.
    - An exception is a value of [exn]; code that raises returns [inl e].
    - The library operations are modelled as the code calls them
      ([pd.tools.tile._bins_to_cuts] dates the code to pandas before 0.20);
      each definition quotes the library code it stands for.
    - numpy's process-wide random state and the [logging] output are the two
      components of [world], threaded through the sampling code. *)

From Stdlib Require Import String.
From Stdlib Require Import QArith ZArith List Bool Arith Lia Lqa Qround Qminmax.
From Stdlib Require Import Sorted Permutation.
Import ListNotations.

Local Open Scope Q_scope.

(** ** Exceptions *)

Inductive value_error : Type :=
| NegativeNumberOfSamples      (* np.linspace: "Number of samples, %s, must be non-negative." *)
| BinEdgesMustBeUnique         (* _bins_to_cuts: "Bin edges must be unique: ..." *)
| NegativeRowsRequested        (* DataFrame.sample: "A negative number of rows requested." *)
| LargerSampleThanPopulation   (* Mtrand.choice: "Cannot take a larger sample than
                                  population when 'replace=False'" *)
| EmptyPopulation              (* Mtrand.choice: "a must be greater than 0" *)
| NoObjectsToConcatenate       (* pd.concat: "No objects to concatenate" *)
| GrouperNotOneDimensional     (* groupby: "Grouper for 'bin' not 1-dimensional" *)
| WrongNumberOfItems.          (* column assignment of a 2-d block: "Wrong number of
                                  items passed 2, placement implies 1" *)

Inductive exn : Type :=
| RuntimeError (field : string)   (* "field '{}' must exist in shapefile" *)
| KeyError (key : string)
| ValueError (why : value_error)
| IndexError
| TypeError
| ZeroDivisionError.

Definition result (A : Type) : Type := (exn + A)%type.

(** ** Numbers *)

Definition float : Type := option Q.
Definition NaN : float := None.

Definition Qltb (a b : Q) : bool := negb (Qle_bool b a).

(** [e < x] as numpy evaluates it: a comparison with NaN is false. *)
Definition float_ltb (e : float) (x : Q) : bool :=
  match e with
  | Some q => Qltb q x
  | None => false
  end.

(** [x == e] element-wise: NaN equals nothing. *)
Definition float_eqb (x : Q) (e : float) : bool :=
  match e with
  | Some q => Qeq_bool x q
  | None => false
  end.

(** Equality of two array entries as pandas' hash table sees them
    ([algos.unique]): all NaN fall in one class. *)
Definition float_same (a b : float) : bool :=
  match a, b with
  | Some p, Some q => Qeq_bool p q
  | None, None => true
  | _, _ => false
  end.

Module Numpy.

(** [np.sort]: insertion sort, stable. *)
Fixpoint insert (x : Q) (l : list Q) : list Q :=
  match l with
  | [] => [x]
  | h :: t => if Qle_bool x h then x :: h :: t else h :: insert x t
  end.

Definition sort (ar : list Q) : list Q := fold_right insert [] ar.

(** [np.unique]: the sorted distinct elements of [ar]. *)
Fixpoint insert_unique (x : Q) (l : list Q) : list Q :=
  match l with
  | [] => [x]
  | h :: t =>
      match x ?= h with
      | Lt => x :: h :: t
      | Eq => h :: t
      | Gt => h :: insert_unique x t
      end
  end.

Definition unique (ar : list Q) : list Q := fold_right insert_unique [] ar.

(** [np.linspace(start, stop, num)] with the default [endpoint=True]:
    [num] evenly spaced numbers, the last one set to [stop] itself.
    A negative [num] raises ValueError. *)
Definition linspace (start stop : Q) (num : Z) : result (list Q) :=
  if (num <? 0)%Z then inl (ValueError NegativeNumberOfSamples)
  else
    match Z.to_nat num with
    | O => inr []
    | S O => inr [start]
    | S (S k) =>
        let step := (stop - start) / inject_Z (num - 1) in
        inr (map (fun i => start + inject_Z (Z.of_nat i) * step) (seq 0 (S k))
               ++ [stop])
    end.

(** The same on bounds that may be NaN (the bounds of an empty geometry
    column): every entry of the result is then NaN. *)
Definition linspace_float (start stop : float) (num : Z) : result (list float) :=
  match start, stop with
  | Some a, Some b =>
      match linspace a b num with
      | inl e => inl e
      | inr l => inr (map Some l)
      end
  | _, _ =>
      if (num <? 0)%Z then inl (ValueError NegativeNumberOfSamples)
      else inr (repeat NaN (Z.to_nat num))
  end.

(** [bins.searchsorted(x, side='left')] for one [x]: the first position whose
    entry is not below [x] (what the binary search finds in an ordered
    array; NaN entries order last). *)
Fixpoint searchsorted_left (bins : list float) (x : Q) : nat :=
  match bins with
  | [] => O
  | b :: t => if float_ltb b x then S (searchsorted_left t x) else O
  end.

End Numpy.

Module Pandas.

(** [pandas.core.algorithms.quantile(x, q)] with the default
    [interpolation_method='fraction']:

    values = np.sort(x)
    def _get_score(at):
        if len(values) == 0: return np.nan
        idx = at * (len(values) - 1)
        if idx % 1 == 0: score = values[int(idx)]
        else: score = _interpolate(values[int(idx)], values[int(idx) + 1], idx % 1)
        return score

    with [_interpolate(a, b, fraction) = a + (b - a) * fraction].  The
    null mask applied to [x] is the identity on numbers.  For [at] in
    [[0, 1]] both indices are in range; [nth] answers 0 out of range, where
    numpy would raise. *)
Definition interpolate (a b fraction : Q) : Q := a + (b - a) * fraction.

Definition get_score (values : list Q) (at_ : Q) : float :=
  match values with
  | [] => NaN
  | _ =>
      let idx := at_ * inject_Z (Z.of_nat (length values) - 1) in
      let i := Z.to_nat (Qfloor idx) in
      let fraction := idx - inject_Z (Qfloor idx) in
      if Qeq_bool fraction 0 then Some (nth i values 0)
      else Some (interpolate (nth i values 0) (nth (S i) values 0) fraction)
  end.

Definition quantile (x : list Q) (q : list Q) : list float :=
  let values := Numpy.sort x in
  map (get_score values) q.

(** [algos.unique] on the edges, used only through its length. *)
Fixpoint unique (l : list float) : list float :=
  match l with
  | [] => []
  | h :: t => if existsb (float_same h) t then unique t else h :: unique t
  end.

(** [pd.tools.tile._bins_to_cuts(x, bins, labels=False, include_lowest=True)]
    with the default [right=True]:

    ids = bins.searchsorted(x, side='left')
    if len(algos.unique(bins)) < len(bins): raise ValueError('Bin edges must be unique')
    if include_lowest: ids[x == bins[0]] = 1
    na_mask = isnull(x) | (ids == len(bins)) | (ids == 0)
    fac = ids - 1, NaN where na_mask

    A label is [Some b] or [None] for NaN. *)
Definition bins_to_cuts (x : list Q) (bins : list float) : result (list (option Z)) :=
  let ids := map (Numpy.searchsorted_left bins) x in
  if (length (unique bins) <? length bins)%nat
  then inl (ValueError BinEdgesMustBeUnique)
  else
    match bins with
    | [] => inl IndexError
    | b0 :: _ =>
        let ids := map (fun xi => if float_eqb (fst xi) b0 then 1%nat else snd xi)
                       (combine x ids) in
        inr (map (fun i => if (i =? length bins)%nat || (i =? 0)%nat then None
                           else Some (Z.of_nat i - 1)%Z) ids)
    end.

End Pandas.

(** ** The quantile binning of [resample_shapefile] (lines 67-72)

    bin_edges = algos.quantile(np.unique(target), np.linspace(0, 1, bins+1))
    result = pd.tools.tile._bins_to_cuts(target, bin_edges, labels=False,
                                         include_lowest=True) *)
Definition bin_edges (target : list Q) (bins : Z) : result (list float) :=
  match Numpy.linspace 0 1 (bins + 1) with
  | inl e => inl e
  | inr q => inr (Pandas.quantile (Numpy.unique target) q)
  end.

Definition bin_labels (target : list Q) (bins : Z) : result (list (option Z)) :=
  match bin_edges target bins with
  | inl e => inl e
  | inr edges => Pandas.bins_to_cuts target edges
  end.

(** ** The dataset

    A GeoDataFrame as [gpd.read_file] gives it: an ordered list of column
    names and an ordered list of rows.  A row carries its index label, its
    geometry (a point) and its numeric cell under every attribute name; only
    the names listed in [columns] are columns of the frame. *)

Record point : Type := Point { px : Q; py : Q }.

Record row : Type := Row {
  label : nat;
  geometry : point;
  value : string -> Q
}.

Record GeoDataFrame : Type := Frame {
  columns : list string;
  records : list row
}.

Definition BIN : string := "bin".
Definition GEOMETRY : string := "geometry".

Definition has_column (f : string) (cols : list string) : bool :=
  existsb (String.eqb f) cols.

Definition occurrences (f : string) (cols : list string) : nat :=
  List.length (filter (String.eqb f) cols).

(** A grid cell, [Polygon([(xs, ys), (xs, ye), (xe, ye), (xe, ys)])]. *)
Record polygon : Type := Polygon { xs : float; ys : float; xe : float; ye : float }.

(** ** The world: numpy's global random state and the log

    The generator is kept abstract: [raw] is the sequence of numbers it will
    produce and [pos] how many have been consumed. *)

Record RandomState : Type := Random { raw : nat -> nat; pos : nat }.

Record world : Type := World {
  random_state : RandomState;
  log : list polygon        (* '{} does not contain any sample'.format(p) *)
}.

Definition M (A : Type) : Type := world -> result A * world.

Definition ret {A : Type} (a : A) : M A := fun w => (inr a, w).
Definition raise {A : Type} (e : exn) : M A := fun w => (inl e, w).
Definition lift {A : Type} (r : result A) : M A := fun w => (r, w).
Definition bind {A B : Type} (m : M A) (k : A -> M B) : M B :=
  fun w =>
    match m w with
    | (inl e, w') => (inl e, w')
    | (inr a, w') => k a w'
    end.

Notation "x <- m ;; k" := (bind m (fun x => k))
  (at level 61, m at next level, right associativity).

Definition log_info (p : polygon) : M unit :=
  fun w => (inr tt, World (random_state w) (log w ++ [p])).

Module Mtrand.

(** [randint(0, high)]: one number below [high]. *)
Definition randint (high : nat) (rs : RandomState) : nat * RandomState :=
  (Nat.modulo (raw rs (pos rs)) high, Random (raw rs) (S (pos rs))).

Fixpoint randints (high size : nat) (rs : RandomState) : list nat * RandomState :=
  match size with
  | O => ([], rs)
  | S k =>
      let (i, rs1) := randint high rs in
      let (l, rs2) := randints high k rs1 in
      (i :: l, rs2)
  end.

Fixpoint remove_nth {A : Type} (i : nat) (l : list A) : list A :=
  match l, i with
  | [], _ => []
  | _ :: t, O => t
  | h :: t, S j => h :: remove_nth j t
  end.

(** [permutation(n)], by drawing the remaining positions one at a time. *)
Fixpoint shuffle (n : nat) (pool : list nat) (rs : RandomState)
  : list nat * RandomState :=
  match n with
  | O => ([], rs)
  | S k =>
      let (j, rs1) := randint (List.length pool) rs in
      let (l, rs2) := shuffle k (remove_nth j pool) rs1 in
      (nth j pool O :: l, rs2)
  end.

Definition permutation (n : nat) (rs : RandomState) : list nat * RandomState :=
  shuffle n (seq 0 n) rs.

(** [choice(pop_size, size=size, replace=replace)]:

    if pop_size <= 0: raise ValueError("a must be greater than 0")
    if replace: idx = randint(0, pop_size, size=size)
    else:
        if size > pop_size: raise ValueError("Cannot take a larger sample ...")
        idx = permutation(pop_size)[:size] *)
Definition choice (pop_size size : nat) (replace : bool) (rs : RandomState)
  : result (list nat) * RandomState :=
  if (pop_size =? 0)%nat then (inl (ValueError EmptyPopulation), rs)
  else if replace then
    let (idx, rs') := randints pop_size size rs in (inr idx, rs')
  else if (pop_size <? size)%nat
    then (inl (ValueError LargerSampleThanPopulation), rs)
    else let (p, rs') := permutation pop_size rs in (inr (firstn size p), rs').

End Mtrand.

Module DataFrame.

(** [take(locs)]: the rows at the given positions. *)
Fixpoint take (locs : list nat) (df : list row) : result (list row) :=
  match locs with
  | [] => inr []
  | i :: t =>
      match nth_error df i, take t df with
      | Some r, inr l => inr (r :: l)
      | None, _ => inl IndexError
      | _, inl e => inl e
      end
  end.

(** [df.sample(n=n, replace=replace)], [random_state=None]:

    if n < 0: raise ValueError("A negative number of rows requested ...")
    locs = np.random.choice(axis_length, size=n, replace=replace)
    return self.take(locs) *)
Definition sample (df : list row) (n : Z) (replace : bool) : M (list row) :=
  fun w =>
    if (n <? 0)%Z then (inl (ValueError NegativeRowsRequested), w)
    else
      match Mtrand.choice (List.length df) (Z.to_nat n) replace (random_state w) with
      | (inl e, rs) => (inl e, World rs (log w))
      | (inr locs, rs) => (take locs df, World rs (log w))
      end.

(** [pd.concat(dfs)]. *)
Definition concat (dfs : list (list row)) : result (list row) :=
  match dfs with
  | [] => inl (ValueError NoObjectsToConcatenate)
  | _ => inr (List.concat dfs)
  end.

(** [df.sort_index()]: rows in increasing order of their index label. *)
Fixpoint insert_row (r : row) (l : list row) : list row :=
  match l with
  | [] => [r]
  | h :: t => if (label r <=? label h)%nat then r :: h :: t else h :: insert_row r t
  end.

Definition sort_index (df : list row) : list row := fold_right insert_row [] df.

(** [df.groupby(BIN)]: one group per bin label present, by increasing label,
    rows in frame order inside a group; rows labelled NaN are in no group. *)
Fixpoint insert_key (k : Z) (l : list Z) : list Z :=
  match l with
  | [] => [k]
  | h :: t =>
      match (k ?= h)%Z with
      | Lt => k :: h :: t
      | Eq => h :: t
      | Gt => h :: insert_key k t
      end
  end.

Fixpoint group_keys (labels : list (option Z)) : list Z :=
  match labels with
  | [] => []
  | Some k :: t => insert_key k (group_keys t)
  | None :: t => group_keys t
  end.

Definition in_group (k : Z) (rl : row * option Z) : bool :=
  match snd rl with
  | Some b => (b =? k)%Z
  | None => false
  end.

Definition groupby (df : list (row * option Z)) : list (Z * list row) :=
  map (fun k => (k, map fst (filter (in_group k) df))) (group_keys (map snd df)).

End DataFrame.

(** ** preprocessing/resampling.py *)

(** [a // b] *)
Definition floordiv (a b : Z) : result Z :=
  if (b =? 0)%Z then inl ZeroDivisionError else inr (a / b)%Z.

(** [output_samples if output_samples else gdf_out.shape[0]]: [None] and [0]
    are both falsy. *)
Definition total_samples_of (output_samples : option Z) (gdf_out : GeoDataFrame) : Z :=
  match output_samples with
  | Some n => if (n =? 0)%Z then Z.of_nat (List.length (records gdf_out)) else n
  | None => Z.of_nat (List.length (records gdf_out))
  end.

(** [filter_fields] (lines 20-28); [input_shapefile] stands for the frame
    [gpd.read_file] returns. *)
Definition filter_fields (fields_to_keep : list string) (input_shapefile : GeoDataFrame)
  : result GeoDataFrame :=
  let gdf := input_shapefile in
  let fields_to_keep := GEOMETRY :: fields_to_keep in
  let original_fields := columns gdf in
  match find (fun f => negb (has_column f original_fields)) fields_to_keep with
  | Some f => inl (RuntimeError f)
  | None => inr (Frame fields_to_keep (records gdf))
  end.

(** [strip_shapefile] (lines 31-43); the value is the frame handed to
    [to_file(output_shapefile)]. *)
Definition strip_shapefile (input_shapefile : GeoDataFrame) (fields_to_keep : list string)
  : result GeoDataFrame :=
  filter_fields fields_to_keep input_shapefile.

(** [gdf_out[target_field].values] as the numbers [np.unique] and
    [_bins_to_cuts] work on.  A name that is no column raises KeyError.  The
    geometry column holds shapely objects, which have no order: sorting or
    searching them raises TypeError, which the model raises here. *)
Definition target_values (gdf_out : GeoDataFrame) (target_field : string)
  : result (list Q) :=
  if has_column target_field (columns gdf_out) then
    if String.eqb target_field GEOMETRY then inl TypeError
    else inr (map (fun r => value r target_field) (records gdf_out))
  else inl (KeyError target_field).

(** [gdf_out[BIN] = result].  When [fields_to_keep] names the target twice,
    [gdf_out[target_field]] is a two-column block, [result] is 2-d and the
    assignment raises ValueError.  The labels are kept beside the rows. *)
Definition set_bin (gdf_out : GeoDataFrame) (target_field : string)
    (labels : list (option Z)) : result (list (row * option Z)) :=
  if (1 <? occurrences target_field (columns gdf_out))%nat
  then inl (ValueError WrongNumberOfItems)
  else inr (combine (records gdf_out) labels).

(** [gdf_out.groupby(BIN)].  When [fields_to_keep] names [BIN] twice the
    frame has two columns of that name and the grouper is not a single
    column: ValueError. *)
Definition group_by_bin (gdf_out : GeoDataFrame) (binned : list (row * option Z))
  : result (list (Z * list row)) :=
  if (1 <? occurrences BIN (columns gdf_out))%nat
  then inl (ValueError GrouperNotOneDimensional)
  else inr (DataFrame.groupby binned).

(** [for b, gr in gb: dfs_to_concat.append(gr.sample(n=samples_per_bin, replace=replace))] *)
Fixpoint sample_groups (gb : list (Z * list row)) (samples_per_bin : Z) (replace : bool)
  : M (list (list row)) :=
  match gb with
  | [] => ret []
  | (_, gr) :: rest =>
      d <- DataFrame.sample gr samples_per_bin replace ;;
      ds <- sample_groups rest samples_per_bin replace ;;
      ret (d :: ds)
  end.

(** [final_df.drop(BIN, axis=1)] *)
Definition drop_bin (cols : list string) : list string :=
  filter (fun f => negb (String.eqb f BIN)) cols.

(** [resample_shapefile] (lines 46-86).  The value returned is the frame
    handed to [to_file(output_shapefile)]; when the call raises, nothing is
    written. *)
Definition resample_shapefile (input_shapefile : GeoDataFrame) (target_field : string)
    (bins : Z) (fields_to_keep : list string) (replace : bool)
    (output_samples : option Z) : M GeoDataFrame :=
  gdf_out <- lift (filter_fields fields_to_keep input_shapefile) ;;
  target <- lift (target_values gdf_out target_field) ;;
  result <- lift (bin_labels target bins) ;;
  binned <- lift (set_bin gdf_out target_field result) ;;
  let total_samples := total_samples_of output_samples gdf_out in
  samples_per_bin <- lift (floordiv total_samples bins) ;;
  gb <- lift (group_by_bin gdf_out binned) ;;
  dfs_to_concat <- sample_groups gb samples_per_bin replace ;;
  final_df <- lift (DataFrame.concat dfs_to_concat) ;;
  ret (Frame (drop_bin (columns gdf_out)) (DataFrame.sort_index final_df)).

(** [gdf_out[GEOMETRY].total_bounds]: NaN on an empty column. *)
Definition total_bounds (g : list point) : float * float * float * float :=
  match g with
  | [] => (NaN, NaN, NaN, NaN)
  | p :: t =>
      (Some (fold_right Qmin (px p) (map px t)),
       Some (fold_right Qmin (py p) (map py t)),
       Some (fold_right Qmax (px p) (map px t)),
       Some (fold_right Qmax (py p) (map py t)))
  end.

(** [zip(grid[:-1], grid[1:])] *)
Definition consecutive {A : Type} (grid : list A) : list (A * A) :=
  combine (removelast grid) (tl grid).

(** Lines 116-119: the outer loop runs over the x intervals, the inner one
    over the y intervals. *)
Definition build_polygons (x_grid y_grid : list float) : list polygon :=
  flat_map (fun x => map (fun y => Polygon (fst x) (fst y) (snd x) (snd y))
                         (consecutive y_grid))
           (consecutive x_grid).

(** shapely's [point.within(p)] for the rectangle [p]: the point lies in the
    interior of [p]; a point of the boundary is not within. *)
Definition within (g : point) (p : polygon) : bool :=
  match xs p, ys p, xe p, ye p with
  | Some x0, Some y0, Some x1, Some y1 =>
      Qltb x0 (px g) && Qltb (px g) x1 && Qltb y0 (py g) && Qltb (py g) y1
  | _, _, _, _ => false
  end.

(** Lines 126-132. *)
Fixpoint sample_cells (polygons : list polygon) (gdf_rows : list row)
    (samples_per_group : Z) (replace : bool) : M (list (list row)) :=
  match polygons with
  | [] => ret []
  | p :: rest =>
      match filter (fun r => within (geometry r) p) gdf_rows with
      | [] =>
          _ <- log_info p ;;
          sample_cells rest gdf_rows samples_per_group replace
      | df =>
          d <- DataFrame.sample df samples_per_group replace ;;
          ds <- sample_cells rest gdf_rows samples_per_group replace ;;
          ret (d :: ds)
      end
  end.

(** [gdf_out[GEOMETRY]]: a geometry series when the frame lists the column
    once.  When [fields_to_keep] names it again the selection is a
    two-column frame, on which the series operations below are not
    available; the model raises TypeError. *)
Definition geometry_column (gdf_out : GeoDataFrame) : result (list point) :=
  if (1 <? occurrences GEOMETRY (columns gdf_out))%nat then inl TypeError
  else inr (map geometry (records gdf_out)).

(** The grid of lines 112-119. *)
Definition build_grid (g : list point) (rows cols : Z) : result (list polygon) :=
  let '(minx, miny, maxx, maxy) := total_bounds g in
  match Numpy.linspace_float minx maxx (cols + 1) with
  | inl e => inl e
  | inr x_grid =>
      match Numpy.linspace_float miny maxy (rows + 1) with
      | inl e => inl e
      | inr y_grid => inr (build_polygons x_grid y_grid)
      end
  end.

(** [resample_shapefile_spatially] (lines 89-135). *)
Definition resample_shapefile_spatially (input_shapefile : GeoDataFrame)
    (rows cols : Z) (fields_to_keep : list string) (replace : bool)
    (output_samples : option Z) : M GeoDataFrame :=
  gdf_out <- lift (filter_fields fields_to_keep input_shapefile) ;;
  g <- lift (geometry_column gdf_out) ;;
  polygons <- lift (build_grid g rows cols) ;;
  let total_samples := total_samples_of output_samples gdf_out in
  samples_per_group <- lift (floordiv total_samples (Z.of_nat (List.length polygons))) ;;
  df_to_concat <- sample_cells polygons (records gdf_out) samples_per_group replace ;;
  final_df <- lift (DataFrame.concat df_to_concat) ;;
  ret (Frame (columns gdf_out) final_df).

(** * Notions used in the statements *)

(** ** Values, edges and labels *)

(** [InQ x l]: [l] holds a number equal to [x]. *)
Definition InQ (x : Q) (l : list Q) : Prop := exists y, In y l /\ y == x.

(** [_get_score] once [idx = at * (len(values) - 1)] is known. *)
Definition score_at (values : list Q) (idx : Q) : Q :=
  let i := Z.to_nat (Qfloor idx) in
  let fraction := idx - inject_Z (Qfloor idx) in
  if Qeq_bool fraction 0 then nth i values 0
  else Pandas.interpolate (nth i values 0) (nth (S i) values 0) fraction.

(** The quantile positions [np.linspace(0, 1, bins+1)] for [bins >= 1]:
    [i / bins] for [i < bins], then [1]. *)
Definition position (bins : Z) (i : nat) : Q :=
  0 + inject_Z (Z.of_nat i) * ((1 - 0) / inject_Z (bins + 1 - 1)).

Definition positions (bins : Z) : list Q :=
  map (position bins) (seq 0 (Z.to_nat bins)) ++ [1].

(** The edges [algos.quantile(values, positions)] of non-empty, sorted
    [values]. *)
Definition edges_of (values : list Q) (bins : Z) : list Q :=
  map (fun at_ => score_at values (at_ * inject_Z (Z.of_nat (List.length values) - 1)))
      (positions bins).

(** [m] is a least (greatest) element of [l]. *)
Definition is_minimum (m : Q) (l : list Q) : Prop :=
  In m l /\ forall y, In y l -> m <= y.

Definition is_maximum (m : Q) (l : list Q) : Prop :=
  In m l /\ forall y, In y l -> y <= m.


(** The label [_bins_to_cuts] gives one value. *)
Definition label_of (edges : list Q) (x : Q) : option Z :=
  let i := if float_eqb x (hd_error edges)
           then 1%nat else Numpy.searchsorted_left (map Some edges) x in
  if (i =? List.length edges)%nat || (i =? 0)%nat then None
  else Some (Z.of_nat i - 1)%Z.

(** [x] falls in bin [b] of the edges: [(edges[b], edges[b+1]]], the lowest
    edge itself being taken into bin 0. *)
Definition in_bin (edges : list Q) (x : Q) (b : Z) : Prop :=
  x <= nth (S (Z.to_nat b)) edges 0 /\
  ((b = 0%Z /\ x == nth 0 edges 0) \/ nth (Z.to_nat b) edges 0 < x).

Local Close Scope Q_scope.

(** ** Strata, quotas and draws *)

(** Everything [resample_shapefile] computes before it draws (lines 63-80):
    the filtered frame, the per-bin quota and the groups. *)
Definition value_strata (input_shapefile : GeoDataFrame) (target_field : string)
    (bins : Z) (fields_to_keep : list string) (output_samples : option Z)
  : result (GeoDataFrame * Z * list (Z * list row)) :=
  match filter_fields fields_to_keep input_shapefile with
  | inl e => inl e
  | inr gdf_out =>
      match target_values gdf_out target_field with
      | inl e => inl e
      | inr target =>
          match bin_labels target bins with
          | inl e => inl e
          | inr labels =>
              match set_bin gdf_out target_field labels with
              | inl e => inl e
              | inr binned =>
                  match floordiv (total_samples_of output_samples gdf_out) bins with
                  | inl e => inl e
                  | inr samples_per_bin =>
                      match group_by_bin gdf_out binned with
                      | inl e => inl e
                      | inr gb => inr (gdf_out, samples_per_bin, gb)
                      end
                  end
              end
          end
      end
  end.

(** Everything [resample_shapefile_spatially] computes before it draws
    (lines 110-124): the filtered frame, the quota and the cells. *)
Definition spatial_strata (input_shapefile : GeoDataFrame) (rows cols : Z)
    (fields_to_keep : list string) (output_samples : option Z)
  : result (GeoDataFrame * Z * list polygon) :=
  match filter_fields fields_to_keep input_shapefile with
  | inl e => inl e
  | inr gdf_out =>
      match geometry_column gdf_out with
      | inl e => inl e
      | inr g =>
          match build_grid g rows cols with
          | inl e => inl e
          | inr polygons =>
              match floordiv (total_samples_of output_samples gdf_out)
                             (Z.of_nat (List.length polygons)) with
              | inl e => inl e
              | inr samples_per_group => inr (gdf_out, samples_per_group, polygons)
              end
          end
      end
  end.

(** [gdf_out[gdf_out[GEOMETRY].within(p)]] *)
Definition cell_rows (gdf_rows : list row) (p : polygon) : list row :=
  filter (fun r => within (geometry r) p) gdf_rows.

(** [not df.shape[0]] *)
Definition is_empty {A : Type} (l : list A) : bool :=
  match l with
  | [] => true
  | _ => false
  end.

(** The cells no record is within, in the order of the grid. *)
Definition empty_cells (polygons : list polygon) (gdf_rows : list row) : list polygon :=
  filter (fun p => is_empty (cell_rows gdf_rows p)) polygons.

(** The rows of the cells that hold a record, in the order of the grid. *)
Definition sampled_cells (polygons : list polygon) (gdf_rows : list row)
  : list (list row) :=
  filter (fun df => negb (is_empty df)) (map (cell_rows gdf_rows) polygons).

(** The two entry points as one: value mode is [resample_shapefile], spatial
    mode is [resample_shapefile_spatially]. *)
Inductive mode : Type :=
| Value (target_field : string) (bins : Z)
| Spatial (rows cols : Z).

Definition resample (m : mode) (input_shapefile : GeoDataFrame)
    (fields_to_keep : list string) (replace : bool) (output_samples : option Z)
  : M GeoDataFrame :=
  match m with
  | Value target_field bins =>
      resample_shapefile input_shapefile target_field bins fields_to_keep replace
                         output_samples
  | Spatial rows cols =>
      resample_shapefile_spatially input_shapefile rows cols fields_to_keep replace
                                   output_samples
  end.

(** The declared number of bins or cells. *)
Definition declared_count (m : mode) : Z :=
  match m with
  | Value _ bins => bins
  | Spatial rows cols => (rows * cols)%Z
  end.

(** The filtered frame, the quota and the non-empty strata the call draws
    from, in the order it visits them. *)
Definition strata (m : mode) (input_shapefile : GeoDataFrame)
    (fields_to_keep : list string) (output_samples : option Z)
  : result (GeoDataFrame * Z * list (list row)) :=
  match m with
  | Value target_field bins =>
      match value_strata input_shapefile target_field bins fields_to_keep
                         output_samples with
      | inl e => inl e
      | inr (gdf_out, n, gb) => inr (gdf_out, n, map snd gb)
      end
  | Spatial rows cols =>
      match spatial_strata input_shapefile rows cols fields_to_keep output_samples with
      | inl e => inl e
      | inr (gdf_out, n, polygons) =>
          inr (gdf_out, n, sampled_cells polygons (records gdf_out))
      end
  end.

(** The order in which the drawn rows are written. *)
Definition written (m : mode) (draws : list (list row)) : list row :=
  match m with
  | Value _ _ => DataFrame.sort_index (List.concat draws)
  | Spatial _ _ => List.concat draws
  end.


(** [draw] is a draw of [n] rows from [stratum]; without replacement [n]
    does not exceed the size of the stratum. *)
Definition drawn (n : Z) (replace : bool) (stratum draw : list row) : Prop :=
  Z.of_nat (List.length draw) = n /\ incl draw stratum /\
  (replace = false -> (n <= Z.of_nat (List.length stratum))%Z).



Local Open Scope Q_scope.

(** ** The grid *)

(** The grid lines [np.linspace(a, b, num=n+1)] for [n >= 1]. *)
Definition ticks (a b : Q) (n : Z) : list Q :=
  map (fun i => a + inject_Z (Z.of_nat i) * ((b - a) / inject_Z (n + 1 - 1)))
      (seq 0 (Z.to_nat n))
  ++ [b].

(** The cell between lines [c], [c+1] of [x_grid] and [r], [r+1] of [y_grid]. *)
Definition cell (x_grid y_grid : list Q) (c r : nat) : polygon :=
  Polygon (Some (nth c x_grid 0)) (Some (nth r y_grid 0))
          (Some (nth (S c) x_grid 0)) (Some (nth (S r) y_grid 0)).

(** ** Bin assignment *)



(** ** Example datasets and generators *)

Definition uranium : string := "uranium".

(** A record with index label [i] at [(x, y)] whose uranium value is [u]. *)
Definition site (i : nat) (x y u : Q) : row :=
  Row i (Point x y) (fun f => if String.eqb f uranium then u else 0).

(** Forty sites with uranium 1, 2, ..., 40. *)
Definition forty_sites : GeoDataFrame :=
  Frame [GEOMETRY; uranium]
        (map (fun i => site i (inject_Z (Z.of_nat i)) 0 (inject_Z (Z.of_nat (S i))))
             (seq 0 40)).

(** Four sites with uranium 1, 2, 3, 4. *)
Definition four_sites : GeoDataFrame :=
  Frame [GEOMETRY; uranium] [site 0 0 0 1; site 1 1 0 2; site 2 2 0 3; site 3 3 0 4].


(** Two sites with uranium 1 and 2. *)
Definition two_sites : GeoDataFrame :=
  Frame [GEOMETRY; uranium] [site 0 0 0 1; site 1 1 1 2].

(** Sites in the box [0,0]-[10,10]; one at its centre. *)
Definition square_sites : GeoDataFrame :=
  Frame [GEOMETRY; uranium]
        [site 0 0 0 1; site 1 10 10 2; site 2 5 5 3; site 3 2 2 4; site 4 7 8 5;
         site 5 2 7 6].

(** Two opposite corners of the box [0,0]-[10,10] and its centre. *)
Definition corner_sites : GeoDataFrame :=
  Frame [GEOMETRY; uranium] [site 0 0 0 1; site 1 10 10 2; site 2 5 5 3].

(** Two states of the random generator. *)
Definition generator_a : RandomState := Random (fun i => (7 * i + 3)%nat) 0.
Definition generator_b : RandomState := Random (fun i => (4 * i)%nat) 0.

(** A world with an empty log. *)
Definition fresh (rs : RandomState) : world := World rs [].

(** The index labels a call wrote, [None] when it raised. *)
Definition written_labels (r : result GeoDataFrame * world) : option (list nat) :=
  match fst r with
  | inr out => Some (map label (records out))
  | inl _ => None
  end.

(** [p] is the rectangle [(x0, y0)-(x1, y1)]. *)
Definition polygon_is (p : polygon) (x0 y0 x1 y1 : Q) : bool :=
  match xs p, ys p, xe p, ye p with
  | Some a, Some b, Some c, Some d =>
      Qeq_bool a x0 && Qeq_bool b y0 && Qeq_bool c x1 && Qeq_bool d y1
  | _, _, _, _ => false
  end.

(** The frame a call wrote, the empty frame when it raised. *)
Definition frame_of (r : result GeoDataFrame * world) : GeoDataFrame :=
  match fst r with
  | inr out => out
  | inl _ => Frame [] []
  end.


(** The point lies strictly inside the bounding box of the column. *)
Definition inside_bounds (g : list point) (pt : point) : bool :=
  match total_bounds g with
  | (Some minx, Some miny, Some maxx, Some maxy) =>
      Qltb minx (px pt) && Qltb (px pt) maxx && Qltb miny (py pt) && Qltb (py pt) maxy
  | _ => false
  end.

(** Polygons no point is within two of. *)
Definition exclusive (polygons : list polygon) : Prop :=
  forall pt i j d, (i < List.length polygons)%nat -> (j < List.length polygons)%nat ->
    within pt (nth i polygons d) = true -> within pt (nth j polygons d) = true -> i = j.

(** * Pixel centres of a raster (scripts/addraster.py)

    [lonlat_pixel_centres] and [validate_file], with the [affine], numpy
    and rasterio operations they call.  Coefficients and coordinates are
    exact rationals.  A call leaves behind the messages it logged at level
    CRITICAL, in order, and the way it ended. *)

Inductive outcome (A : Type) : Type :=
| Returned (x : A)
| Raised (e : exn)
| SystemExit (code : Z).           (* sys.exit(code) *)

Arguments Returned {A} x.
Arguments Raised {A} e.
Arguments SystemExit {A} code.

Module Affine.

(** [affine.Affine]: the named tuple [(a, b, c, d, e, f, g, h, i)] of the
    matrix
<<
      | a b c |
      | d e f |
      | 0 0 1 |
>>  *)
Record t : Type := Make { a : Q; b : Q; c : Q; d : Q; e : Q; f : Q }.

(** [Affine.translation(xoff, yoff)] *)
Definition translation (xoff yoff : Q) : t := Make 1 0 xoff 0 1 yoff.

(** [self * other] for two transforms ([Affine.__mul__]). *)
Definition mul (self other : t) : t :=
  let '(Make sa sb sc sd se sf) := self in
  let '(Make oa ob oc od oe of_) := other in
  Make (sa * oa + sb * od) (sa * ob + sb * oe) (sa * oc + sb * of_ + sc)
       (sd * oa + se * od) (sd * ob + se * oe) (sd * oc + se * of_ + sf).

(** The transform as the tuple it is. *)
Definition to_tuple (T : t) : list Q :=
  [a T; b T; c T; d T; e T; f T; 0; 0; 1].

(** [T[k]] for an index [k] of the tuple. *)
Definition item (T : t) (k : nat) : Q := nth k (to_tuple T) 0.

End Affine.

(** [rasterio]'s open dataset, as far as the two functions read it. *)
Record DatasetReader : Type :=
  Dataset { affine : Affine.t; width : Z; height : Z }.

(** [np.arange(n)] for an integer [n]: [0, 1, ..., n-1], empty when
    [n <= 0]. *)
Definition arange (n : Z) : list Z := map Z.of_nat (seq 0 (Z.to_nat n)).

(** [x[0]] and [x[-1]] of a 1-d array: IndexError on an empty one. *)
Definition first_item (x : list Q) : result Q :=
  match x with
  | [] => inl IndexError
  | v :: _ => inr v
  end.

Definition last_item (x : list Q) : result Q :=
  match x with
  | [] => inl IndexError
  | _ => inr (last x 0)
  end.

(** [x == y] on two 1-d arrays of the same length, element by element. *)
Fixpoint equal_elementwise (x y : list Q) : list bool :=
  match x, y with
  | u :: x', v :: y' => Qeq_bool u v :: equal_elementwise x' y'
  | _, _ => []
  end.

(** [np.all(x == y)] for two non-empty 1-d arrays.  Arrays of the same
    length are compared element by element; an array of length 1 is
    broadcast against the other; for any other two lengths the comparison
    of the numpy this code was written for gives the scalar [False]
    (with a warning). *)
Definition all_equal (x y : list Q) : bool :=
  if (List.length x =? List.length y)%nat then forallb id (equal_elementwise x y)
  else if (List.length x =? 1)%nat then forallb (fun v => Qeq_bool (hd 0 x) v) y
  else if (List.length y =? 1)%nat then forallb (fun u => Qeq_bool u (hd 0 y)) x
  else false.

(** The messages of [log.critical]. *)
Definition rotation_or_shear : string :=
  "transform to pixel coordinates has rotation or shear".
Definition width_mismatch : string := "input image width does not match hdf5".
Definition height_mismatch : string := "input image height does not match hdf5".
Definition x_bounds_mismatch : string := "image x-bounds do not match hdf5".
Definition y_bounds_mismatch : string := "image y-bounds do not match hdf5".
Definition longitudes_mismatch : string := "longitudes pixel values do not match hdf5".
Definition latitudes_mismatch : string := "latitudes pixel values do not match hdf5".

(** [lonlat_pixel_centres] (lines 107-122). *)
Definition lonlat_pixel_centres (raster : DatasetReader)
  : list string * outcome (list Q * list Q) :=
  let T1 := Affine.mul (affine raster) (Affine.translation (1 # 2) (1 # 2)) in
  if negb (Qeq_bool (Affine.item T1 1) 0 && Qeq_bool (Affine.item T1 3) 0) then
    ([rotation_or_shear], SystemExit (-1))
  else
    let f_lons := map (fun i => Affine.item T1 2 + inject_Z i * Affine.item T1 0)
                      (arange (width raster)) in
    let f_lats := map (fun i => Affine.item T1 5 + inject_Z i * Affine.item T1 4)
                      (arange (height raster)) in
    ([], Returned (f_lons, f_lats)).

(** [if not cond: log.critical(msg); all_valid = False] *)
Definition critical_unless (cond : bool) (msg : string) (state : list string * bool)
  : list string * bool :=
  if cond then state else (fst state ++ [msg], false).

(** [validate_file] (lines 125-154); [f] stands for the dataset
    [rasterio.open(filename)] gives. *)
Definition validate_file (f : DatasetReader) (longitudes latitudes : list Q)
  : list string * outcome bool :=
  let xres := Z.of_nat (List.length longitudes) in
  let yres := Z.of_nat (List.length latitudes) in
  match first_item longitudes, last_item longitudes,
        first_item latitudes, last_item latitudes with
  | inr x0, inr x1, inr y0, inr y1 =>
      let s := critical_unless (width f =? xres)%Z width_mismatch ([], true) in
      let s := critical_unless (height f =? yres)%Z height_mismatch s in
      match lonlat_pixel_centres f with
      | (msgs, SystemExit code) => (fst s ++ msgs, SystemExit code)
      | (msgs, Raised e) => (fst s ++ msgs, Raised e)
      | (msgs, Returned (f_lons, f_lats)) =>
          let s := (fst s ++ msgs, snd s) in
          match first_item f_lons, last_item f_lons with
          | inr u0, inr u1 =>
              let s := critical_unless (Qeq_bool x0 u0 && Qeq_bool x1 u1) x_bounds_mismatch s in
              match first_item f_lats, last_item f_lats with
              | inr v0, inr v1 =>
                  let s := critical_unless (Qeq_bool y0 v0 && Qeq_bool y1 v1) y_bounds_mismatch s in
                  let s := critical_unless (all_equal longitudes f_lons) longitudes_mismatch s in
                  let s := critical_unless (all_equal latitudes f_lats) latitudes_mismatch s in
                  (fst s, Returned (snd s))
              | inl e, _ | _, inl e => (fst s, Raised e)
              end
          | inl e, _ | _, inl e => (fst s, Raised e)
          end
      end
  | inl e, _, _, _ | _, inl e, _, _ | _, _, inl e, _ | _, _, _, inl e => ([], Raised e)
  end.


(** The messages [validate_file] can log. *)
Definition mismatches : list string :=
  [width_mismatch; height_mismatch; x_bounds_mismatch; y_bounds_mismatch;
   longitudes_mismatch; latitudes_mismatch].

(** The state of [validate_file]'s checks: [all_valid] is still set exactly
    when nothing was logged, and only its own messages were. *)
Definition consistent (state : list string * bool) : Prop :=
  (snd state = true <-> fst state = []) /\ incl (fst state) mismatches.

Definition moved_tile : DatasetReader := Dataset (Affine.Make 2 0 101 0 (-1) 50) 4 3.

(** * Properties of the library operations *)

(** ** Numbers, [np.unique] and [np.sort] *)

Lemma Qltb_spec (a b : Q) : Qltb a b = true <-> a < b.
Proof.
  unfold Qltb. rewrite negb_true_iff.
  split; intro H.
  - apply Qnot_le_lt. intro L. apply Qle_bool_iff in L. congruence.
  - destruct (Qle_bool b a) eqn:E; [|reflexivity].
    apply Qle_bool_iff in E. lra.
Qed.

Lemma Qltb_false (a b : Q) : Qltb a b = false <-> b <= a.
Proof.
  unfold Qltb. rewrite negb_false_iff. apply Qle_bool_iff.
Qed.

Section Unique.

Import Numpy.

Lemma insert_unique_In (x y : Q) (l : list Q) :
  In y (insert_unique x l) -> y = x \/ In y l.
Proof.
  induction l as [|h t IH]; simpl.
  - intros [<-|[]]. now left.
  - destruct (x ?= h); simpl; intros H.
    + now right.
    + destruct H as [<-|H]; [now left | now right].
    + destruct H as [<-|H]; [right; now left|].
      destruct (IH H) as [->|H']; [now left | right; now right].
Qed.

Lemma insert_unique_InQ (x y : Q) (l : list Q) :
  InQ y (insert_unique x l) <-> y == x \/ InQ y l.
Proof.
  unfold InQ. induction l as [|h t IH]; simpl.
  - split.
    + intros (z & [<-|[]] & E). left. now symmetry.
    + intros [E|(z & [] & _)]. exists x. split; [now left | now symmetry].
  - destruct (x ?= h) eqn:C; simpl.
    + apply Qeq_alt in C. split.
      * intros (z & Hz & E). right. now exists z.
      * intros [E|(z & Hz & E)].
        -- exists h. split; [now left|]. rewrite <- C. now symmetry.
        -- now exists z.
    + split.
      * intros (z & [<-|Hz] & E); [left; now symmetry | right; now exists z].
      * intros [E|(z & Hz & E)].
        -- exists x. split; [now left | now symmetry].
        -- exists z. split; [now right | assumption].
    + split.
      * intros (z & [<-|Hz] & E).
        -- right. exists h. split; [now left | assumption].
        -- destruct (proj1 IH) as [E'|(z' & Hz' & E')].
           ++ now exists z.
           ++ now left.
           ++ right. exists z'. split; [now right | assumption].
      * intros [E|(z & [<-|Hz] & E)].
        -- destruct (proj2 IH (or_introl E)) as (z & Hz & E').
           exists z. split; [now right | assumption].
        -- exists h. split; [now left | assumption].
        -- destruct (proj2 IH) as (z' & Hz' & E').
           ++ right. now exists z.
           ++ exists z'. split; [now right | assumption].
Qed.

Lemma unique_In (y : Q) (l : list Q) : In y (unique l) -> In y l.
Proof.
  induction l as [|h t IH]; simpl; [tauto|].
  intros H. apply insert_unique_In in H. destruct H as [->|H]; auto.
Qed.

Lemma unique_InQ (y : Q) (l : list Q) : InQ y (unique l) <-> InQ y l.
Proof.
  induction l as [|h t IH]; simpl.
  - reflexivity.
  - rewrite insert_unique_InQ, IH. unfold InQ. split.
    + intros [E|(z & Hz & E)].
      * exists h. split; [now left | now symmetry].
      * exists z. split; [now right | assumption].
    + intros (z & [<-|Hz] & E); [left; now symmetry | right; now exists z].
Qed.

Lemma insert_unique_sorted (x : Q) (l : list Q) :
  StronglySorted Qlt l -> StronglySorted Qlt (insert_unique x l).
Proof.
  induction 1 as [|h t St IH Fa]; simpl.
  - repeat constructor.
  - destruct (x ?= h) eqn:C.
    + now constructor.
    + apply Qlt_alt in C. constructor; [now constructor|].
      constructor; [assumption|].
      eapply Forall_impl; [|exact Fa]. intros a Ha. simpl in Ha. lra.
    + apply Qgt_alt in C. constructor; [assumption|].
      apply Forall_forall. intros y Hy.
      apply insert_unique_In in Hy. destruct Hy as [->|Hy]; [assumption|].
      rewrite Forall_forall in Fa. now apply Fa.
Qed.

Lemma unique_sorted (l : list Q) : StronglySorted Qlt (unique l).
Proof.
  induction l; simpl; [constructor | now apply insert_unique_sorted].
Qed.

Lemma insert_unique_nonempty (x : Q) (l : list Q) : insert_unique x l <> [].
Proof. destruct l; simpl; [discriminate | destruct (x ?= q); discriminate]. Qed.

Lemma unique_nonempty (l : list Q) : l <> [] -> unique l <> [].
Proof. destruct l; [congruence | intros _; apply insert_unique_nonempty]. Qed.

(** Sorting an increasing list leaves it as it is. *)
Lemma sort_sorted (l : list Q) : StronglySorted Qlt l -> sort l = l.
Proof.
  induction 1 as [|h t St IH Fa]; [reflexivity|].
  unfold sort in *. simpl. rewrite IH.
  destruct t as [|h' t']; [reflexivity|]. simpl.
  inversion Fa as [|? ? Hlt _]; subst.
  destruct (Qle_bool h h') eqn:E; [reflexivity|].
  assert (h <= h') by lra. apply Qle_bool_iff in H. congruence.
Qed.


End Unique.

Lemma sorted_nth (l : list Q) :
  StronglySorted Qlt l ->
  forall i j, (i < j < List.length l)%nat -> nth i l 0 < nth j l 0.
Proof.
  induction 1 as [|h t St IH Fa]; intros i j [Hij Hj]; simpl in *; [lia|].
  destruct j as [|j]; [lia|]. destruct i as [|i].
  - rewrite Forall_forall in Fa. apply Fa. apply nth_In. lia.
  - apply IH. lia.
Qed.

Lemma sorted_nth_le (l : list Q) :
  StronglySorted Qlt l ->
  forall i j, (i <= j < List.length l)%nat -> nth i l 0 <= nth j l 0.
Proof.
  intros S i j [Hij Hj]. destruct (Nat.eq_dec i j) as [->|N]; [lra|].
  apply Qlt_le_weak, sorted_nth; [assumption | lia].
Qed.

(** ** The quantile score at a fractional position *)

Section Score.

Import Pandas.

Lemma get_score_score_at (values : list Q) (at_ : Q) :
  values <> [] ->
  get_score values at_ =
  Some (score_at values (at_ * inject_Z (Z.of_nat (List.length values) - 1))).
Proof.
  destruct values as [|v0 vs]; [congruence|]. intros _.
  unfold get_score, score_at.
  now destruct (Qeq_bool _ 0).
Qed.

Lemma floor_position (idx : Q) (m : Z) :
  0 <= idx -> idx <= inject_Z m ->
  (0 <= Qfloor idx <= m)%Z /\
  0 <= idx - inject_Z (Qfloor idx) < 1 /\
  (~ idx - inject_Z (Qfloor idx) == 0 -> (Qfloor idx < m)%Z).
Proof.
  intros H0 Hm.
  pose proof (Qfloor_le idx) as Hle. pose proof (Qlt_floor idx) as Hlt.
  rewrite inject_Z_plus in Hlt. change (inject_Z 1) with 1 in Hlt.
  assert (Hk0 : (0 <= Qfloor idx)%Z).
  { change 0%Z with (Qfloor 0). now apply Qfloor_resp_le. }
  assert (Hkm : (Qfloor idx <= m)%Z).
  { rewrite <- (Qfloor_Z m). now apply Qfloor_resp_le. }
  repeat split; try assumption; try lra.
  intros Hne. destruct (Z.eq_dec (Qfloor idx) m) as [E|N]; [|lia].
  exfalso. apply Hne. rewrite E in *. lra.
Qed.

Variable values : list Q.
Hypothesis values_sorted : StronglySorted Qlt values.

Let top : Z := (Z.of_nat (List.length values) - 1)%Z.

Lemma score_at_lower (idx : Q) :
  0 <= idx -> idx <= inject_Z top ->
  nth (Z.to_nat (Qfloor idx)) values 0 <= score_at values idx.
Proof.
  intros H0 Hm. destruct (floor_position idx top H0 Hm) as (Hk & Hf & Hn).
  unfold score_at, interpolate.
  destruct (Qeq_bool (idx - inject_Z (Qfloor idx)) 0) eqn:E; [lra|].
  apply Qeq_bool_neq in E. specialize (Hn E).
  assert (L : nth (Z.to_nat (Qfloor idx)) values 0
              < nth (S (Z.to_nat (Qfloor idx))) values 0).
  { apply sorted_nth; [assumption|]. subst top. lia. }
  nra.
Qed.

Lemma score_at_upper (idx : Q) :
  0 <= idx -> idx <= inject_Z top -> (Qfloor idx < top)%Z ->
  score_at values idx < nth (S (Z.to_nat (Qfloor idx))) values 0.
Proof.
  intros H0 Hm Hlt. destruct (floor_position idx top H0 Hm) as (Hk & Hf & Hn).
  assert (L : nth (Z.to_nat (Qfloor idx)) values 0
              < nth (S (Z.to_nat (Qfloor idx))) values 0).
  { apply sorted_nth; [assumption|]. subst top. lia. }
  unfold score_at, interpolate.
  destruct (Qeq_bool (idx - inject_Z (Qfloor idx)) 0) eqn:E; [lra|].
  nra.
Qed.

Lemma score_at_linear (idx : Q) :
  score_at values idx ==
  nth (Z.to_nat (Qfloor idx)) values 0
  + (nth (S (Z.to_nat (Qfloor idx))) values 0 - nth (Z.to_nat (Qfloor idx)) values 0)
    * (idx - inject_Z (Qfloor idx)).
Proof.
  unfold score_at, interpolate.
  destruct (Qeq_bool (idx - inject_Z (Qfloor idx)) 0) eqn:E; [|reflexivity].
  apply Qeq_bool_eq in E. rewrite E. ring.
Qed.

(** The score grows strictly with the position. *)
Lemma score_at_lt (idx1 idx2 : Q) :
  0 <= idx1 -> idx1 < idx2 -> idx2 <= inject_Z top ->
  score_at values idx1 < score_at values idx2.
Proof.
  intros H0 H12 Hm.
  assert (H1m : idx1 <= inject_Z top) by lra.
  assert (H02 : 0 <= idx2) by lra.
  destruct (floor_position idx1 top H0 H1m) as (Hk1 & Hf1 & Hn1).
  destruct (floor_position idx2 top H02 Hm) as (Hk2 & Hf2 & Hn2).
  assert (Hkk : (Qfloor idx1 <= Qfloor idx2)%Z) by (apply Qfloor_resp_le; lra).
  destruct (Z.eq_dec (Qfloor idx1) (Qfloor idx2)) as [E|N].
  - rewrite (score_at_linear idx1), (score_at_linear idx2). rewrite <- E in *.
    assert (Hne : ~ idx2 - inject_Z (Qfloor idx1) == 0) by lra.
    specialize (Hn2 Hne).
    assert (L : nth (Z.to_nat (Qfloor idx1)) values 0
                < nth (S (Z.to_nat (Qfloor idx1))) values 0).
    { apply sorted_nth; [assumption|]. subst top. lia. }
    nra.
  - assert (Hlt : (Qfloor idx1 < top)%Z) by lia.
    pose proof (score_at_upper idx1 H0 H1m Hlt) as U.
    pose proof (score_at_lower idx2 H02 Hm) as L.
    assert (Mid : nth (S (Z.to_nat (Qfloor idx1))) values 0
                  <= nth (Z.to_nat (Qfloor idx2)) values 0).
    { apply sorted_nth_le; [assumption|]. subst top. lia. }
    lra.
Qed.

Lemma score_at_first : score_at values 0 = nth 0 values 0.
Proof. reflexivity. Qed.

Lemma score_at_last :
  score_at values (1 * inject_Z top) = nth (Z.to_nat top) values 0.
Proof.
  unfold score_at.
  assert (E : 1 * inject_Z top == inject_Z top) by ring.
  rewrite (Qfloor_comp _ _ E), Qfloor_Z.
  destruct (Qeq_bool (1 * inject_Z top - inject_Z top) 0) eqn:B; [reflexivity|].
  apply Qeq_bool_neq in B. exfalso. apply B. ring.
Qed.

End Score.

Lemma score_at_integer (values : list Q) (idx : Q) (k : Z) :
  idx == inject_Z k -> score_at values idx = nth (Z.to_nat k) values 0.
Proof.
  intros E. unfold score_at. rewrite (Qfloor_comp _ _ E), Qfloor_Z.
  destruct (Qeq_bool (idx - inject_Z k) 0) eqn:B; [reflexivity|].
  apply Qeq_bool_neq in B. exfalso. apply B. rewrite E. ring.
Qed.



(** ** The quantile positions [np.linspace(0, 1, bins+1)] *)

Lemma linspace_positions (bins : Z) :
  (1 <= bins)%Z -> Numpy.linspace 0 1 (bins + 1) = inr (positions bins).
Proof.
  intros H. unfold Numpy.linspace, positions.
  destruct (Z.ltb_spec (bins + 1) 0); [lia|].
  replace (Z.to_nat (bins + 1)) with (S (Z.to_nat bins)) by lia.
  destruct (Z.to_nat bins) as [|k] eqn:E; [lia|]. reflexivity.
Qed.

Lemma position_value (bins : Z) (i : nat) :
  (1 <= bins)%Z -> position bins i == inject_Z (Z.of_nat i) / inject_Z bins.
Proof.
  intros H. unfold position.
  replace (bins + 1 - 1)%Z with bins by lia.
  assert (~ inject_Z bins == 0).
  { intro E. assert (0 < inject_Z bins); [|lra].
    change 0 with (inject_Z 0). rewrite <- Zlt_Qlt. lia. }
  field. assumption.
Qed.

Lemma position_scaled (bins : Z) (i : nat) (m : Q) :
  (1 <= bins)%Z ->
  position bins i * m == inject_Z (Z.of_nat i) * m / inject_Z bins.
Proof.
  intros H. rewrite position_value by assumption.
  assert (~ inject_Z bins == 0).
  { intro E. assert (0 < inject_Z bins); [|lra].
    change 0 with (inject_Z 0). rewrite <- Zlt_Qlt. lia. }
  field. assumption.
Qed.

Lemma inject_Z_pos (z : Z) : (0 < z)%Z -> 0 < inject_Z z.
Proof. intros H. change 0 with (inject_Z 0). now rewrite <- Zlt_Qlt. Qed.

Lemma inject_Z_nonneg (z : Z) : (0 <= z)%Z -> 0 <= inject_Z z.
Proof. intros H. change 0 with (inject_Z 0). now rewrite <- Zle_Qle. Qed.

(** Position [i] times [m], for [i <= bins], lies in [[0, m]] and grows with [i]. *)
Lemma position_scaled_bounds (bins : Z) (i : nat) (m : Z) :
  (1 <= bins)%Z -> (0 <= m)%Z -> (Z.of_nat i <= bins)%Z ->
  0 <= position bins i * inject_Z m <= inject_Z m.
Proof.
  intros Hb Hm Hi. rewrite position_scaled by assumption.
  pose proof (inject_Z_pos bins ltac:(lia)) as Pb.
  pose proof (inject_Z_nonneg m Hm) as Pm.
  pose proof (inject_Z_nonneg (Z.of_nat i) ltac:(lia)) as Pi.
  assert (Hib : inject_Z (Z.of_nat i) <= inject_Z bins) by now rewrite <- Zle_Qle.
  split.
  - apply Qle_shift_div_l; [assumption|]. nra.
  - apply Qle_shift_div_r; [assumption|]. nra.
Qed.

Lemma position_scaled_lt (bins : Z) (i j : nat) (m : Z) :
  (1 <= bins)%Z -> (0 < m)%Z -> (i < j)%nat ->
  position bins i * inject_Z m < position bins j * inject_Z m.
Proof.
  intros Hb Hm Hij. rewrite !position_scaled by assumption.
  pose proof (inject_Z_pos bins ltac:(lia)) as Pb.
  pose proof (inject_Z_pos m Hm) as Pm.
  assert (Hlt : inject_Z (Z.of_nat i) < inject_Z (Z.of_nat j)).
  { rewrite <- Zlt_Qlt. lia. }
  pose proof (Qinv_lt_0_compat _ Pb) as Pinv.
  assert (inject_Z (Z.of_nat i) * inject_Z m < inject_Z (Z.of_nat j) * inject_Z m)
    by nra.
  unfold Qdiv. nra.
Qed.

Lemma position_scaled_top (bins : Z) (i : nat) (m : Z) :
  (1 <= bins)%Z -> (0 < m)%Z -> (Z.of_nat i < bins)%Z ->
  position bins i * inject_Z m < 1 * inject_Z m.
Proof.
  intros Hb Hm Hi. rewrite position_scaled by assumption.
  pose proof (inject_Z_pos bins ltac:(lia)) as Pb.
  pose proof (inject_Z_pos m Hm) as Pm.
  assert (Hlt : inject_Z (Z.of_nat i) < inject_Z bins) by now rewrite <- Zlt_Qlt.
  apply Qlt_shift_div_r; [assumption|]. nra.
Qed.

Lemma sorted_map_seq {A : Type} (R : A -> A -> Prop) (g : nat -> A) (n a : nat) :
  (forall i j, (a <= i < j)%nat -> (j < a + n)%nat -> R (g i) (g j)) ->
  StronglySorted R (map g (seq a n)).
Proof.
  revert a. induction n as [|n IH]; intros a H; simpl; constructor.
  - apply IH. intros i j Hij Hj. apply H; lia.
  - apply Forall_forall. intros y Hy. apply in_map_iff in Hy.
    destruct Hy as (j & <- & Hj). apply in_seq in Hj. apply H; lia.
Qed.

Lemma sorted_snoc {A : Type} (R : A -> A -> Prop) (l : list A) (z : A) :
  StronglySorted R l -> Forall (fun x => R x z) l -> StronglySorted R (l ++ [z]).
Proof.
  induction 1 as [|h t St IH Fa]; intros Fz; simpl.
  - repeat constructor.
  - inversion Fz; subst. constructor; [now apply IH|].
    apply Forall_app. split; [assumption | now constructor].
Qed.

(** ** The edges [algos.quantile(np.unique(target), np.linspace(0, 1, bins+1))] *)

Lemma bin_edges_edges_of (target : list Q) (bins : Z) :
  target <> [] -> (1 <= bins)%Z ->
  bin_edges target bins = inr (map Some (edges_of (Numpy.unique target) bins)).
Proof.
  intros Hne Hb. unfold bin_edges. rewrite linspace_positions by assumption.
  unfold Pandas.quantile. rewrite sort_sorted by apply unique_sorted.
  unfold edges_of. rewrite map_map. f_equal.
  apply map_ext. intros a. apply get_score_score_at. now apply unique_nonempty.
Qed.

Lemma edges_of_length (values : list Q) (bins : Z) :
  (1 <= bins)%Z -> List.length (edges_of values bins) = Z.to_nat (bins + 1).
Proof.
  intros H. unfold edges_of, positions.
  rewrite length_map, length_app, length_map, length_seq. simpl. lia.
Qed.

Lemma nonempty_length {A : Type} (l : list A) : l <> [] -> (1 <= List.length l)%nat.
Proof. destruct l; [congruence | simpl; lia]. Qed.

Section Edges.

Variable values : list Q.
Variable bins : Z.
Hypothesis values_sorted : StronglySorted Qlt values.
Hypothesis values_nonempty : values <> [].
Hypothesis bins_positive : (1 <= bins)%Z.

Let top : Z := (Z.of_nat (List.length values) - 1)%Z.

Lemma top_nonneg : (0 <= top)%Z.
Proof. pose proof (nonempty_length values values_nonempty). subst top. lia. Qed.

Lemma edges_of_unfold :
  edges_of values bins =
  map (fun i => score_at values (position bins i * inject_Z top))
      (seq 0 (Z.to_nat bins))
  ++ [nth (Z.to_nat top) values 0].
Proof.
  unfold edges_of, positions. rewrite map_app, map_map. simpl.
  f_equal. f_equal. apply score_at_integer. unfold top. ring.
Qed.

Lemma edges_of_hd : hd 0 (edges_of values bins) = nth 0 values 0.
Proof.
  rewrite edges_of_unfold.
  destruct (Z.to_nat bins) as [|k] eqn:E; [lia|]. simpl.
  apply (score_at_integer values _ 0%Z).
  rewrite position_scaled by assumption. simpl. unfold Qdiv. ring.
Qed.

Lemma edges_of_last :
  last (edges_of values bins) 0 = nth (Z.to_nat top) values 0.
Proof. rewrite edges_of_unfold. apply last_last. Qed.

(** With two distinct values or more the edges increase strictly. *)
Lemma edges_of_increasing :
  (2 <= List.length values)%nat -> StronglySorted Qlt (edges_of values bins).
Proof.
  intros H2. rewrite edges_of_unfold.
  assert (Ht : (0 < top)%Z) by (subst top; lia).
  apply sorted_snoc.
  - apply sorted_map_seq. intros i j Hij Hj.
    apply score_at_lt; [assumption| | |].
    + apply position_scaled_bounds; lia.
    + apply position_scaled_lt; lia.
    + apply position_scaled_bounds; lia.
  - apply Forall_forall. intros y Hy. apply in_map_iff in Hy.
    destruct Hy as (i & <- & Hi). apply in_seq in Hi.
    rewrite <- (score_at_integer values (1 * inject_Z top) top) by ring.
    apply score_at_lt; [assumption| | |].
    + apply position_scaled_bounds; lia.
    + apply position_scaled_top; lia.
    + fold top. lra.
Qed.

(** With a single value every edge is that value. *)
Lemma edges_of_single :
  List.length values = 1%nat ->
  edges_of values bins = repeat (nth 0 values 0) (Z.to_nat (bins + 1)).
Proof.
  intros H1. rewrite edges_of_unfold.
  assert (Ht : top = 0%Z) by (subst top; lia). rewrite Ht.
  replace (Z.to_nat (bins + 1)) with (Z.to_nat bins + 1)%nat by lia.
  rewrite repeat_app. simpl. f_equal.
  assert (G : forall n a,
             map (fun i => score_at values (position bins i * inject_Z 0)) (seq a n)
             = repeat (nth 0 values 0) n).
  { induction n as [|n IH]; intros a; simpl; [reflexivity|].
    rewrite IH. f_equal. apply (score_at_integer values _ 0%Z).
    change (inject_Z 0) with 0. ring. }
  apply G.
Qed.


End Edges.

Lemma unique_minimum (target : list Q) :
  target <> [] -> is_minimum (nth 0 (Numpy.unique target) 0) target.
Proof.
  intros Hne. pose proof (unique_nonempty target Hne) as Hu.
  pose proof (nonempty_length _ Hu) as Hlen. split.
  - apply unique_In, nth_In. lia.
  - intros y Hy.
    destruct (proj2 (unique_InQ y target)) as (z & Hz & E).
    { exists y. split; [assumption | reflexivity]. }
    destruct (In_nth _ _ 0 Hz) as (i & Hi & <-). rewrite <- E.
    apply sorted_nth_le; [apply unique_sorted | lia].
Qed.

Lemma unique_maximum (target : list Q) :
  target <> [] ->
  is_maximum (nth (Z.to_nat (Z.of_nat (List.length (Numpy.unique target)) - 1))
                  (Numpy.unique target) 0) target.
Proof.
  intros Hne. pose proof (unique_nonempty target Hne) as Hu.
  pose proof (nonempty_length _ Hu) as Hlen. split.
  - apply unique_In, nth_In. lia.
  - intros y Hy.
    destruct (proj2 (unique_InQ y target)) as (z & Hz & E).
    { exists y. split; [assumption | reflexivity]. }
    destruct (In_nth _ _ 0 Hz) as (i & Hi & <-). rewrite <- E.
    apply sorted_nth_le; [apply unique_sorted | lia].
Qed.



(** ** [_bins_to_cuts] on increasing edges *)

Lemma searchsorted_left_spec (edges : list Q) (x : Q) :
  let k := Numpy.searchsorted_left (map Some edges) x in
  (k <= List.length edges)%nat /\
  (forall i, (i < k)%nat -> nth i edges 0 < x) /\
  ((k < List.length edges)%nat -> x <= nth k edges 0).
Proof.
  induction edges as [|e t IH]; simpl.
  - repeat split; intros; lia.
  - destruct (Qltb e x) eqn:E.
    + apply Qltb_spec in E. destruct IH as (IH1 & IH2 & IH3).
      repeat split.
      * lia.
      * intros [|i] Hi; [assumption | apply IH2; lia].
      * intros Hk. apply IH3. lia.
    + apply Qltb_false in E. repeat split; intros; try lia. assumption.
Qed.

Lemma unique_of_increasing (edges : list Q) :
  StronglySorted Qlt edges -> Pandas.unique (map Some edges) = map Some edges.
Proof.
  induction 1 as [|h t St IH Fa]; simpl; [reflexivity|].
  rewrite IH. destruct (existsb (float_same (Some h)) (map Some t)) eqn:E;
    [|reflexivity].
  exfalso. apply existsb_exists in E. destruct E as (y & Hy & E).
  apply in_map_iff in Hy. destruct Hy as (z & <- & Hz). simpl in E.
  apply Qeq_bool_eq in E. rewrite Forall_forall in Fa. specialize (Fa z Hz). lra.
Qed.

Lemma bins_to_cuts_increasing (x : list Q) (edges : list Q) :
  StronglySorted Qlt edges -> edges <> [] ->
  Pandas.bins_to_cuts x (map Some edges) = inr (map (label_of edges) x).
Proof.
  intros S Hne. unfold Pandas.bins_to_cuts.
  rewrite unique_of_increasing by assumption. rewrite Nat.ltb_irrefl.
  rewrite length_map. unfold label_of.
  destruct edges as [|e0 rest] eqn:Ee; [congruence|]. rewrite <- Ee.
  replace (map Some edges) with (Some e0 :: map Some rest) by (rewrite Ee; reflexivity).
  f_equal. rewrite map_map.
  replace (Some e0 :: map Some rest) with (map Some edges) by (rewrite Ee; reflexivity).
  replace (hd_error edges) with (Some e0) by (rewrite Ee; reflexivity).
  induction x as [|v t IH]; [reflexivity|].
  cbn [map combine fst snd]. rewrite <- IH. reflexivity.
Qed.

Lemma last_nth {A : Type} (l : list A) (d : A) :
  last l d = nth (List.length l - 1) l d.
Proof.
  induction l as [|h t IH]; [reflexivity|].
  destruct t as [|h' t']; [reflexivity|].
  change (last (h :: h' :: t') d) with (last (h' :: t') d). rewrite IH.
  simpl. now rewrite Nat.sub_0_r.
Qed.

Lemma hd_error_nth {A : Type} (l : list A) (d : A) :
  l <> [] -> hd_error l = Some (nth 0 l d).
Proof. destruct l; [congruence | reflexivity]. Qed.

Section Labels.

Variable edges : list Q.
Variable bins : Z.
Hypothesis edges_increasing : StronglySorted Qlt edges.
Hypothesis edges_length : List.length edges = Z.to_nat (bins + 1).
Hypothesis bins_positive : (1 <= bins)%Z.

Lemma label_of_in_range (x : Q) :
  nth 0 edges 0 <= x -> x <= last edges 0 ->
  exists b : Z,
    label_of edges x = Some b /\ (0 <= b < bins)%Z /\ in_bin edges x b /\
    (x == nth 0 edges 0 -> b = 0%Z) /\
    (x == last edges 0 -> b = (bins - 1)%Z).
Proof.
  intros Hlo Hhi.
  assert (Hlast : last edges 0 = nth (Z.to_nat bins) edges 0).
  { rewrite last_nth, edges_length. f_equal. lia. }
  rewrite Hlast in *.
  assert (Hlt01 : nth 0 edges 0 < nth 1 edges 0).
  { apply sorted_nth; [assumption | lia]. }
  unfold label_of.
  rewrite (hd_error_nth edges 0) by (intros E; rewrite E in edges_length; simpl in *; lia).
  cbn [float_eqb]. change (Z.to_nat 0) with 0%nat.
  remember (nth 0 edges 0) as e0 eqn:He0.
  destruct (Qeq_bool x e0) eqn:Ex.
  - apply Qeq_bool_eq in Ex.
    assert (H1 : (1 =? List.length edges)%nat = false) by (apply Nat.eqb_neq; lia).
    rewrite H1. simpl. exists 0%Z.
    split; [reflexivity|]. split; [lia|]. split.
    + unfold in_bin. change (Z.to_nat 0) with 0%nat.
      split; [lra | left; split; [reflexivity | rewrite <- He0; lra]].
    + split; [reflexivity|]. intros Emax.
      destruct (Z.eq_dec bins 1) as [->|N]; [reflexivity|]. exfalso.
      assert (nth 0 edges 0 < nth (Z.to_nat bins) edges 0).
      { apply sorted_nth; [assumption | lia]. }
      rewrite <- He0 in *. lra.
  - apply Qeq_bool_neq in Ex.
    destruct (searchsorted_left_spec edges x) as (K1 & K2 & K3).
    set (k := Numpy.searchsorted_left (map Some edges) x) in *.
    assert (Hk1 : (1 <= k)%nat).
    { destruct k as [|k']; [|lia]. exfalso.
      assert (x <= nth 0 edges 0) by (apply K3; lia).
      rewrite <- He0 in *. apply Ex. lra. }
    assert (Hkb : (k <= Z.to_nat bins)%nat).
    { destruct (le_lt_dec k (Z.to_nat bins)) as [L|G]; [assumption|]. exfalso.
      specialize (K2 (Z.to_nat bins) G). lra. }
    assert (Hk : (k =? List.length edges)%nat = false) by (apply Nat.eqb_neq; lia).
    assert (Hk0 : (k =? 0)%nat = false) by (apply Nat.eqb_neq; lia).
    rewrite Hk, Hk0. simpl. exists (Z.of_nat k - 1)%Z.
    split; [reflexivity|]. split; [lia|]. unfold in_bin.
    replace (S (Z.to_nat (Z.of_nat k - 1))) with k by lia.
    split; [|split].
    + split; [apply K3; lia|]. right. apply K2. lia.
    + intros E. contradiction.
    + intros Emax.
      destruct (Nat.eq_dec k (Z.to_nat bins)) as [->|N]; [lia|]. exfalso.
      assert (x <= nth k edges 0) by (apply K3; lia).
      assert (nth k edges 0 < nth (Z.to_nat bins) edges 0).
      { apply sorted_nth; [assumption | lia]. }
      lra.
Qed.

End Labels.

Local Close Scope Q_scope.

(** ** Sampling *)

Section Choice.

Import Mtrand.

Lemma randints_spec (high size : nat) (rs : RandomState) :
  (0 < high)%nat ->
  List.length (fst (randints high size rs)) = size /\
  Forall (fun i => (i < high)%nat) (fst (randints high size rs)).
Proof.
  intros Hh. revert rs. induction size as [|k IH]; intros rs; simpl.
  - split; [reflexivity | constructor].
  - destruct (randints high k _) as [l rs2] eqn:E.
    specialize (IH (Random (raw rs) (S (pos rs)))). rewrite E in IH. simpl in *.
    destruct IH as [IH1 IH2]. split; [now rewrite IH1|].
    constructor; [|assumption]. apply Nat.mod_upper_bound. lia.
Qed.

Lemma remove_nth_length {A : Type} (i : nat) (l : list A) :
  (i < List.length l)%nat -> List.length (remove_nth i l) = (List.length l - 1)%nat.
Proof.
  revert i. induction l as [|h t IH]; intros i Hi; simpl in Hi; [lia|].
  destruct i as [|j]; simpl; [lia|]. rewrite IH; lia.
Qed.

Lemma remove_nth_incl {A : Type} (i : nat) (l : list A) : incl (remove_nth i l) l.
Proof.
  revert i. induction l as [|h t IH]; intros i x Hx; [destruct i; assumption|].
  destruct i as [|j]; simpl in Hx; [now right|].
  destruct Hx as [<-|Hx]; [now left | right; eapply IH; eassumption].
Qed.

Lemma shuffle_spec (n : nat) (pool : list nat) (rs : RandomState) :
  List.length pool = n ->
  List.length (fst (shuffle n pool rs)) = n /\
  incl (fst (shuffle n pool rs)) pool.
Proof.
  revert pool rs. induction n as [|k IH]; intros pool rs Hlen; simpl.
  - split; [reflexivity | intros x []].
  - assert (Hj : (Nat.modulo (raw rs (pos rs)) (List.length pool)
                  < List.length pool)%nat) by (apply Nat.mod_upper_bound; lia).
    destruct (shuffle k _ _) as [l rs2] eqn:E.
    specialize (IH (remove_nth (Nat.modulo (raw rs (pos rs)) (List.length pool)) pool)
                   (Random (raw rs) (S (pos rs)))).
    rewrite E in IH. simpl in *.
    destruct IH as [IH1 IH2]; [rewrite remove_nth_length; lia|].
    split; [now rewrite IH1|].
    intros x [<-|Hx]; [now apply nth_In|].
    eapply remove_nth_incl, IH2, Hx.
Qed.

Lemma In_firstn {A : Type} (n : nat) (l : list A) (x : A) :
  In x (firstn n l) -> In x l.
Proof.
  revert l. induction n as [|n IH]; intros [|h t]; simpl; try tauto.
  intros [<-|H]; [now left | right; now apply IH].
Qed.

(** The three outcomes of [choice]. *)
Lemma choice_ok (pop_size size : nat) (replace : bool) (rs : RandomState) :
  (0 < pop_size)%nat -> (replace = true \/ (size <= pop_size)%nat) ->
  exists idx rs',
    choice pop_size size replace rs = (inr idx, rs') /\
    List.length idx = size /\ Forall (fun i => (i < pop_size)%nat) idx.
Proof.
  intros Hp Hr. unfold choice.
  destruct (Nat.eqb_spec pop_size 0); [lia|].
  destruct replace.
  - destruct (randints_spec pop_size size rs Hp) as [H1 H2].
    destruct (randints pop_size size rs) as [idx rs']. simpl in *.
    exists idx, rs'. auto.
  - destruct Hr as [|Hr]; [discriminate|].
    destruct (Nat.ltb_spec pop_size size); [lia|].
    unfold permutation.
    destruct (shuffle_spec pop_size (seq 0 pop_size) rs (length_seq _ _)) as [H1 H2].
    destruct (shuffle pop_size (seq 0 pop_size) rs) as [p rs']. simpl in *.
    exists (firstn size p), rs'. split; [reflexivity|]. split.
    + rewrite length_firstn. lia.
    + apply Forall_forall. intros i Hi. apply In_firstn in Hi.
      apply H2 in Hi. apply in_seq in Hi. lia.
Qed.

Lemma choice_too_many (pop_size size : nat) (rs : RandomState) :
  (0 < pop_size < size)%nat ->
  choice pop_size size false rs = (inl (ValueError LargerSampleThanPopulation), rs).
Proof.
  intros H. unfold choice.
  destruct (Nat.eqb_spec pop_size 0); [lia|].
  destruct (Nat.ltb_spec pop_size size); [reflexivity | lia].
Qed.

End Choice.

Section Sample.

Import DataFrame.

Lemma take_spec (locs : list nat) (df : list row) :
  Forall (fun i => (i < List.length df)%nat) locs ->
  exists l, take locs df = inr l /\ List.length l = List.length locs /\ incl l df.
Proof.
  induction 1 as [|i t Hi Ht IH]; simpl.
  - exists []. repeat split. intros x [].
  - destruct IH as (l & -> & Hl & Hin).
    destruct (nth_error df i) as [r|] eqn:E.
    + exists (r :: l). split; [reflexivity|]. split; [simpl; now rewrite Hl|].
      intros x [<-|Hx]; [eapply nth_error_In; eassumption | now apply Hin].
    + apply nth_error_None in E. lia.
Qed.

(** A draw that can be made: exactly [n] rows of [df], the log untouched. *)
Lemma sample_ok (df : list row) (n : Z) (replace : bool) (w : world) :
  df <> [] -> (0 <= n)%Z -> (replace = true \/ (n <= Z.of_nat (List.length df))%Z) ->
  exists d rs',
    sample df n replace w = (inr d, World rs' (log w)) /\
    Z.of_nat (List.length d) = n /\ incl d df.
Proof.
  intros Hne Hn Hr. unfold sample.
  destruct (Z.ltb_spec n 0); [lia|].
  pose proof (nonempty_length df Hne) as Hlen.
  destruct (choice_ok (List.length df) (Z.to_nat n) replace (random_state w))
    as (idx & rs' & -> & Hl & Hin); [lia | destruct Hr; [now left | right; lia] |].
  destruct (take_spec idx df Hin) as (l & -> & Hl' & Hincl).
  exists l, rs'. split; [reflexivity|]. split; [lia | assumption].
Qed.

(** Without replacement a quota above the population raises; nothing is
    clamped. *)
Lemma sample_too_many (df : list row) (n : Z) (w : world) :
  df <> [] -> (Z.of_nat (List.length df) < n)%Z ->
  sample df n false w = (inl (ValueError LargerSampleThanPopulation), w).
Proof.
  intros Hne Hn. unfold sample.
  destruct (Z.ltb_spec n 0); [lia|].
  pose proof (nonempty_length df Hne) as Hlen.
  rewrite choice_too_many by lia. now destruct w.
Qed.

Lemma sample_negative (df : list row) (n : Z) (replace : bool) (w : world) :
  (n < 0)%Z -> sample df n replace w = (inl (ValueError NegativeRowsRequested), w).
Proof.
  intros Hn. unfold sample. destruct (Z.ltb_spec n 0); [reflexivity | lia].
Qed.

(** Whatever the outcome, [sample] writes nothing to the log. *)
Lemma sample_log (df : list row) (n : Z) (replace : bool) (w : world) :
  log (snd (sample df n replace w)) = log w.
Proof.
  unfold sample. destruct (n <? 0)%Z; [reflexivity|].
  destruct (Mtrand.choice _ _ _ _) as [[e|locs] rs]; reflexivity.
Qed.

(** A successful draw has exactly [n] rows, all of them rows of [df]. *)
Lemma sample_inr (df : list row) (n : Z) (replace : bool) (w w' : world) (d : list row) :
  df <> [] -> sample df n replace w = (inr d, w') ->
  Z.of_nat (List.length d) = n /\ incl d df /\
  (replace = false -> (n <= Z.of_nat (List.length df))%Z).
Proof.
  intros Hne H.
  destruct (Z.ltb_spec n 0) as [Hneg|Hpos].
  { rewrite sample_negative in H by assumption. discriminate. }
  destruct replace.
  - destruct (sample_ok df n true w Hne Hpos (or_introl eq_refl))
      as (d' & rs' & E & Hl & Hi).
    rewrite E in H. inversion H; subst. repeat split; auto. discriminate.
  - destruct (Z.ltb_spec (Z.of_nat (List.length df)) n) as [Hbig|Hsmall].
    { rewrite sample_too_many in H by assumption. discriminate. }
    destruct (sample_ok df n false w Hne Hpos (or_intror Hsmall))
      as (d' & rs' & E & Hl & Hi).
    rewrite E in H. inversion H; subst. repeat split; auto.
Qed.

End Sample.

(** * Properties of the two orchestrators *)

(** ** Stage by stage *)

Lemma resample_shapefile_stages input target_field bins fields_to_keep replace
    output_samples (w : world) :
  resample_shapefile input target_field bins fields_to_keep replace output_samples w =
  match value_strata input target_field bins fields_to_keep output_samples with
  | inl e => (inl e, w)
  | inr (gdf_out, samples_per_bin, gb) =>
      match sample_groups gb samples_per_bin replace w with
      | (inl e, w') => (inl e, w')
      | (inr dfs, w') =>
          match DataFrame.concat dfs with
          | inl e => (inl e, w')
          | inr final_df =>
              (inr (Frame (drop_bin (columns gdf_out)) (DataFrame.sort_index final_df)),
               w')
          end
      end
  end.
Proof.
  unfold resample_shapefile, value_strata, bind, lift, ret.
  destruct (filter_fields _ _) as [e|gdf_out]; [reflexivity|].
  destruct (target_values _ _) as [e|target]; [reflexivity|].
  destruct (bin_labels _ _) as [e|labels]; [reflexivity|].
  destruct (set_bin _ _ _) as [e|binned]; [reflexivity|].
  destruct (floordiv _ _) as [e|n]; [reflexivity|].
  destruct (group_by_bin _ _) as [e|gb]; [reflexivity|].
  destruct (sample_groups _ _ _ _) as [[e|dfs] w']; [reflexivity|].
  destruct (DataFrame.concat dfs); reflexivity.
Qed.

Lemma resample_shapefile_spatially_stages input rows cols fields_to_keep replace
    output_samples (w : world) :
  resample_shapefile_spatially input rows cols fields_to_keep replace output_samples w =
  match spatial_strata input rows cols fields_to_keep output_samples with
  | inl e => (inl e, w)
  | inr (gdf_out, samples_per_group, polygons) =>
      match sample_cells polygons (records gdf_out) samples_per_group replace w with
      | (inl e, w') => (inl e, w')
      | (inr dfs, w') =>
          match DataFrame.concat dfs with
          | inl e => (inl e, w')
          | inr final_df => (inr (Frame (columns gdf_out) final_df), w')
          end
      end
  end.
Proof.
  unfold resample_shapefile_spatially, spatial_strata, bind, lift, ret.
  destruct (filter_fields _ _) as [e|gdf_out]; [reflexivity|].
  destruct (geometry_column _) as [e|g]; [reflexivity|].
  destruct (build_grid _ _ _) as [e|polygons]; [reflexivity|].
  destruct (floordiv _ _) as [e|n]; [reflexivity|].
  destruct (sample_cells _ _ _ _ _) as [[e|dfs] w']; [reflexivity|].
  destruct (DataFrame.concat dfs); reflexivity.
Qed.

(** ** Groups *)

Section Groups.

Import DataFrame.

Lemma insert_key_In (k x : Z) (l : list Z) :
  In x (insert_key k l) -> x = k \/ In x l.
Proof.
  induction l as [|h t IH]; simpl.
  - intros [<-|[]]. now left.
  - destruct (Z.compare_spec k h) as [Ekh|Lkh|Gkh]; simpl; intros H.
    + now right.
    + destruct H as [<-|H]; [now left | now right].
    + destruct H as [<-|H]; [right; now left|].
      destruct (IH H) as [->|H']; [now left | right; now right].
Qed.

Lemma group_keys_In (k : Z) (labels : list (option Z)) :
  In k (group_keys labels) -> In (Some k) labels.
Proof.
  induction labels as [|[b|] t IH]; simpl; [tauto| |].
  - intros H. apply insert_key_In in H. destruct H as [->|H]; auto.
  - auto.
Qed.

Lemma insert_key_In_inv (k x : Z) (l : list Z) :
  x = k \/ In x l -> In x (insert_key k l).
Proof.
  induction l as [|h t IH]; simpl.
  - intros [->|[]]. now left.
  - destruct (Z.compare_spec k h) as [Ekh|Lkh|Gkh]; simpl; intros H.
    + destruct H as [->|H]; [left; congruence | assumption].
    + destruct H as [->|H]; [now left | now right].
    + destruct H as [->|[->|H]]; [right; apply IH; now left | now left
                                 | right; apply IH; now right].
Qed.

Lemma group_keys_In_inv (k : Z) (labels : list (option Z)) :
  In (Some k) labels -> In k (group_keys labels).
Proof.
  induction labels as [|[b|] t IH]; simpl; [tauto| |].
  - intros [E|H]; apply insert_key_In_inv; [left; congruence | right; auto].
  - intros [E|H]; [discriminate | auto].
Qed.

Lemma insert_key_sorted (k : Z) (l : list Z) :
  StronglySorted Z.lt l -> StronglySorted Z.lt (insert_key k l).
Proof.
  induction 1 as [|h t St IH Fa]; simpl.
  - repeat constructor.
  - destruct (Z.compare_spec k h) as [Ekh|Lkh|Gkh].
    + now constructor.
    + constructor; [now constructor|]. constructor; [assumption|].
      eapply Forall_impl; [|exact Fa]. intros a Ha. simpl in Ha. lia.
    + constructor; [assumption|]. apply Forall_forall. intros y Hy.
      apply insert_key_In in Hy. destruct Hy as [->|Hy]; [assumption|].
      rewrite Forall_forall in Fa. now apply Fa.
Qed.

Lemma group_keys_sorted (labels : list (option Z)) :
  StronglySorted Z.lt (group_keys labels).
Proof.
  induction labels as [|[b|] t IH]; simpl;
    [constructor | now apply insert_key_sorted | assumption].
Qed.

(** Every group [groupby] yields has a row, and its rows are rows of the frame. *)
Lemma groupby_groups (df : list (row * option Z)) :
  Forall (fun g => snd g <> [] /\ incl (snd g) (map fst df)) (groupby df).
Proof.
  unfold groupby. apply Forall_forall. intros g Hg.
  apply in_map_iff in Hg. destruct Hg as (k & <- & Hk). simpl.
  apply group_keys_In in Hk. apply in_map_iff in Hk.
  destruct Hk as ([r b] & Eb & Hin). simpl in Eb. subst b. split.
  - intros E.
    assert (Hf : In (r, Some k) (filter (in_group k) df)).
    { apply filter_In. split; [assumption|]. unfold in_group. simpl.
      apply Z.eqb_refl. }
    apply (in_map fst) in Hf. rewrite E in Hf. destruct Hf.
  - intros x Hx. apply in_map_iff in Hx. destruct Hx as (y & <- & Hy).
    apply filter_In in Hy. apply in_map. tauto.
Qed.

End Groups.

(** ** The sampling loops *)

(** What a successful run of the value-mode loop returns. *)
Lemma sample_groups_inr (gb : list (Z * list row)) (n : Z) (replace : bool)
    (w w' : world) (dfs : list (list row)) :
  Forall (fun g => snd g <> []) gb ->
  sample_groups gb n replace w = (inr dfs, w') ->
  Forall2 (fun g d => Z.of_nat (List.length d) = n /\ incl d (snd g) /\
                      (replace = false -> (n <= Z.of_nat (List.length (snd g)))%Z))
          gb dfs
  /\ log w' = log w.
Proof.
  intros Hne. revert w dfs. induction Hne as [|[k gr] rest Hg Hrest IH]; intros w dfs H.
  - simpl in H. inversion H; subst. split; [constructor | reflexivity].
  - simpl in H. unfold bind, ret in H.
    destruct (DataFrame.sample gr n replace w) as [[e|d] w1] eqn:E1; [discriminate|].
    destruct (sample_groups rest n replace w1) as [[e|ds] w2] eqn:E2; [discriminate|].
    inversion H; subst.
    destruct (IH _ _ E2) as [F L].
    pose proof (sample_log gr n replace w) as L1. rewrite E1 in L1. simpl in L1.
    split; [|congruence].
    constructor; [|assumption]. simpl in *. eapply sample_inr; eassumption.
Qed.


(** Without replacement, a bin smaller than the quota aborts the loop. *)
Lemma sample_groups_insufficient (gb : list (Z * list row)) (n : Z) (w : world) :
  Forall (fun g => snd g <> []) gb ->
  Exists (fun g => (Z.of_nat (List.length (snd g)) < n)%Z) gb ->
  exists w', sample_groups gb n false w = (inl (ValueError LargerSampleThanPopulation), w').
Proof.
  intros Hne Hex.
  assert (Hn : (0 <= n)%Z).
  { apply Exists_exists in Hex. destruct Hex as (g & _ & Hg). lia. }
  revert w.
  induction Hne as [|[k gr] rest Hg Hrest IH]; intros w; [inversion Hex|].
  simpl in *. unfold bind, ret.
  destruct (Z.ltb_spec (Z.of_nat (List.length gr)) n) as [Hsmall|Hbig].
  - rewrite sample_too_many by assumption. now exists w.
  - destruct (sample_ok gr n false w Hg) as (d & rs' & -> & _); [lia | now right |].
    inversion Hex as [? ? Hhere|? ? Hlater]; subst; [simpl in Hhere; lia|].
    destruct (IH Hlater (World rs' (log w))) as (w' & ->). now exists w'.
Qed.

(** ** Cells *)

Lemma sampled_cells_nonempty (polygons : list polygon) (gdf_rows : list row) :
  Forall (fun df => df <> [] /\ incl df gdf_rows) (sampled_cells polygons gdf_rows).
Proof.
  apply Forall_forall. intros df H. unfold sampled_cells in H.
  apply filter_In in H. destruct H as [Hin Hne]. split.
  - intros ->. discriminate.
  - apply in_map_iff in Hin. destruct Hin as (p & <- & _).
    intros x Hx. unfold cell_rows in Hx. apply filter_In in Hx. tauto.
Qed.

Lemma sample_cells_inr (polygons : list polygon) (gdf_rows : list row) (n : Z)
    (replace : bool) (w w' : world) (dfs : list (list row)) :
  sample_cells polygons gdf_rows n replace w = (inr dfs, w') ->
  Forall2 (fun df d => Z.of_nat (List.length d) = n /\ incl d df /\
                       (replace = false -> (n <= Z.of_nat (List.length df))%Z))
          (sampled_cells polygons gdf_rows) dfs
  /\ log w' = log w ++ empty_cells polygons gdf_rows.
Proof.
  revert w dfs. induction polygons as [|p rest IH]; intros w dfs H.
  - simpl in H. inversion H; subst. split; [constructor | now rewrite app_nil_r].
  - simpl in H. unfold sampled_cells, empty_cells. simpl. fold (cell_rows gdf_rows p) in *.
    destruct (cell_rows gdf_rows p) as [|r0 df0] eqn:Ecell.
    + simpl. unfold bind, log_info in H. simpl in H.
      destruct (IH _ _ H) as [F L]. split; [exact F|].
      rewrite L. simpl. now rewrite <- app_assoc.
    + simpl. unfold bind, ret in H.
      destruct (DataFrame.sample (r0 :: df0) n replace w) as [[e|d] w1] eqn:E1;
        [discriminate|].
      destruct (sample_cells rest gdf_rows n replace w1) as [[e|ds] w2] eqn:E2;
        [discriminate|].
      inversion H; subst.
      destruct (IH _ _ E2) as [F L].
      pose proof (sample_log (r0 :: df0) n replace w) as L1. rewrite E1 in L1.
      simpl in L1. split; [|rewrite L, L1; reflexivity].
      constructor; [|exact F]. eapply sample_inr; [discriminate | eassumption].
Qed.


Lemma sample_cells_insufficient (polygons : list polygon) (gdf_rows : list row) (n : Z)
    (w : world) :
  Exists (fun df => (Z.of_nat (List.length df) < n)%Z) (sampled_cells polygons gdf_rows) ->
  exists w', sample_cells polygons gdf_rows n false w
             = (inl (ValueError LargerSampleThanPopulation), w').
Proof.
  intros Hex.
  assert (Hn : (0 <= n)%Z).
  { apply Exists_exists in Hex. destruct Hex as (g & _ & Hg). lia. }
  revert w. induction polygons as [|p rest IH]; intros w; [inversion Hex|].
  simpl. unfold sampled_cells in Hex. simpl in Hex. fold (cell_rows gdf_rows p) in *.
  destruct (cell_rows gdf_rows p) as [|r0 df0] eqn:Ecell.
  - unfold bind, log_info. simpl. apply IH. exact Hex.
  - simpl in Hex. unfold bind, ret.
    destruct (Z.ltb_spec (Z.of_nat (List.length (r0 :: df0))) n) as [Hsmall|Hbig].
    + rewrite sample_too_many by (assumption || discriminate). now exists w.
    + destruct (sample_ok (r0 :: df0) n false w) as (d & rs' & -> & _);
        [discriminate | assumption | now right |].
      inversion Hex as [? ? Hhere|? ? Hlater]; subst; [lia|].
      destruct (IH Hlater (World rs' (log w))) as (w' & ->). now exists w'.
Qed.


(** ** The size of the grid *)

Lemma linspace_length (start stop : Q) (num : Z) (l : list Q) :
  Numpy.linspace start stop num = inr l -> List.length l = Z.to_nat num.
Proof.
  unfold Numpy.linspace. destruct (num <? 0)%Z; [discriminate|].
  destruct (Z.to_nat num) as [|[|k]]; intros [= <-]; try reflexivity.
  simpl. rewrite length_app, length_map, length_seq. simpl. lia.
Qed.

Lemma linspace_float_length (start stop : float) (num : Z) (l : list float) :
  Numpy.linspace_float start stop num = inr l -> List.length l = Z.to_nat num.
Proof.
  unfold Numpy.linspace_float.
  destruct start as [a|], stop as [b|].
  - destruct (Numpy.linspace a b num) as [e|l'] eqn:E; [discriminate|].
    intros H. inversion H; subst. rewrite length_map. eapply linspace_length, E.
  - destruct (num <? 0)%Z; [discriminate|]. intros H. inversion H. apply repeat_length.
  - destruct (num <? 0)%Z; [discriminate|]. intros H. inversion H. apply repeat_length.
  - destruct (num <? 0)%Z; [discriminate|]. intros H. inversion H. apply repeat_length.
Qed.

Lemma linspace_float_negative (start stop : float) (num : Z) :
  (num < 0)%Z -> Numpy.linspace_float start stop num = inl (ValueError NegativeNumberOfSamples).
Proof.
  intros H. unfold Numpy.linspace_float, Numpy.linspace.
  destruct (Z.ltb_spec num 0); [|lia]. now destruct start, stop.
Qed.

Lemma consecutive_length {A : Type} (grid : list A) :
  List.length (consecutive grid) = (List.length grid - 1)%nat.
Proof.
  unfold consecutive. rewrite length_combine, removelast_firstn_len, length_firstn.
  destruct grid; simpl; lia.
Qed.

Lemma build_polygons_length (x_grid y_grid : list float) :
  List.length (build_polygons x_grid y_grid)
  = ((List.length x_grid - 1) * (List.length y_grid - 1))%nat.
Proof.
  unfold build_polygons. rewrite <- !consecutive_length.
  induction (consecutive x_grid) as [|x t IH]; simpl; [reflexivity|].
  rewrite length_app, length_map, IH. reflexivity.
Qed.

Lemma build_grid_length (g : list point) (rows cols : Z) (polygons : list polygon) :
  build_grid g rows cols = inr polygons ->
  List.length polygons = (Z.to_nat cols * Z.to_nat rows)%nat.
Proof.
  unfold build_grid. destruct (total_bounds g) as [[[minx miny] maxx] maxy].
  destruct (Numpy.linspace_float minx maxx (cols + 1)) as [e|x_grid] eqn:Ex; [discriminate|].
  destruct (Numpy.linspace_float miny maxy (rows + 1)) as [e|y_grid] eqn:Ey; [discriminate|].
  intros H. inversion H; subst. rewrite build_polygons_length.
  assert (Hc : (0 <= cols + 1)%Z).
  { destruct (Z.ltb_spec (cols + 1) 0) as [L|]; [|assumption].
    pose proof (linspace_float_negative minx maxx _ L). congruence. }
  assert (Hr : (0 <= rows + 1)%Z).
  { destruct (Z.ltb_spec (rows + 1) 0) as [L|]; [|assumption].
    pose proof (linspace_float_negative miny maxy _ L). congruence. }
  apply linspace_float_length in Ex, Ey. rewrite Ex, Ey.
  f_equal; lia.
Qed.

Lemma filter_fields_records (fields_to_keep : list string) (input gdf_out : GeoDataFrame) :
  filter_fields fields_to_keep input = inr gdf_out ->
  records gdf_out = records input /\ columns gdf_out = GEOMETRY :: fields_to_keep.
Proof.
  unfold filter_fields. destruct (find _ _); [discriminate|].
  intros H. inversion H. split; reflexivity.
Qed.

Lemma floordiv_inr (a b q : Z) : floordiv a b = inr q -> b <> 0%Z /\ q = (a / b)%Z.
Proof.
  unfold floordiv. destruct (Z.eqb_spec b 0); [discriminate|].
  intros H. inversion H. split; [assumption | reflexivity].
Qed.

Lemma map_fst_combine_incl {A B : Type} (l : list A) (l' : list B) :
  incl (map fst (combine l l')) l.
Proof.
  revert l'. induction l as [|a t IH]; intros [|b t'] x Hx; simpl in *; try tauto.
  destruct Hx as [<-|Hx]; [now left | right; eapply IH; eassumption].
Qed.

Lemma strata_inr (m : mode) input fields_to_keep output_samples gdf_out n groups :
  strata m input fields_to_keep output_samples = inr (gdf_out, n, groups) ->
  filter_fields fields_to_keep input = inr gdf_out /\
  declared_count m <> 0%Z /\
  n = (total_samples_of output_samples gdf_out / declared_count m)%Z /\
  Forall (fun s => s <> [] /\ incl s (records input)) groups.
Proof.
  destruct m as [target_field bins|rows cols]; simpl.
  - unfold value_strata.
    destruct (filter_fields _ _) as [e|g0] eqn:Ef; [discriminate|].
    destruct (target_values _ _) as [e|target]; [discriminate|].
    destruct (bin_labels _ _) as [e|labels]; [discriminate|].
    destruct (set_bin _ _ _) as [e|binned] eqn:Eb; [discriminate|].
    destruct (floordiv _ _) as [e|q] eqn:Eq; [discriminate|].
    destruct (group_by_bin _ _) as [e|gb] eqn:Eg; [discriminate|].
    intros H. inversion H; subst. apply floordiv_inr in Eq. destruct Eq as [Hb ->].
    repeat split; try assumption.
    unfold group_by_bin in Eg. destruct (_ <? _)%nat; [discriminate|].
    inversion Eg; subst. unfold set_bin in Eb. destruct (_ <? _)%nat; [discriminate|].
    inversion Eb; subst.
    destruct (filter_fields_records _ _ _ Ef) as [<- _].
    apply Forall_forall. intros s Hs. apply in_map_iff in Hs.
    destruct Hs as (g & <- & Hg).
    pose proof (groupby_groups (combine (records gdf_out) labels)) as G.
    rewrite Forall_forall in G. destruct (G g Hg) as [G1 G2].
    split; [assumption|]. intros x Hx. eapply map_fst_combine_incl, G2, Hx.
  - unfold spatial_strata.
    destruct (filter_fields _ _) as [e|g0] eqn:Ef; [discriminate|].
    destruct (geometry_column _) as [e|g]; [discriminate|].
    destruct (build_grid _ _ _) as [e|polygons] eqn:Eg; [discriminate|].
    destruct (floordiv _ _) as [e|q] eqn:Eq; [discriminate|].
    intros H. inversion H; subst. apply floordiv_inr in Eq. destruct Eq as [Hb ->].
    apply build_grid_length in Eg. rewrite Eg in *.
    assert (Hmul : Z.of_nat (Z.to_nat cols * Z.to_nat rows) = (rows * cols)%Z) by nia.
    rewrite Hmul in *. repeat split; try assumption.
    destruct (filter_fields_records _ _ _ Ef) as [<- _].
    apply sampled_cells_nonempty.
Qed.

(** ** [sort_index] *)

Section SortIndex.

Import DataFrame.

Lemma insert_row_perm (r : row) (l : list row) : Permutation (insert_row r l) (r :: l).
Proof.
  induction l as [|h t IH]; simpl; [reflexivity|].
  destruct (label r <=? label h)%nat; [reflexivity|].
  rewrite IH. apply perm_swap.
Qed.

Lemma sort_index_perm (l : list row) : Permutation (sort_index l) l.
Proof.
  induction l as [|h t IH]; simpl; [reflexivity|].
  rewrite insert_row_perm. now constructor.
Qed.




End SortIndex.

(** ** What a call that returns has done *)

Lemma Forall2_map_snd {A B C : Type} (P : B -> C -> Prop) (l : list (A * B)) (l' : list C) :
  Forall2 (fun g d => P (snd g) d) l l' -> Forall2 P (map snd l) l'.
Proof. induction 1; simpl; constructor; assumption. Qed.

Lemma concat_inr (dfs final : list (list row)) (l : list row) :
  DataFrame.concat dfs = inr l -> dfs <> [] /\ l = List.concat dfs.
Proof.
  destruct dfs; simpl; [discriminate|]. intros [= <-]. split; [discriminate | reflexivity].
Qed.

Lemma strata_value_groups input target_field bins fields_to_keep output_samples
    gdf_out n gb :
  value_strata input target_field bins fields_to_keep output_samples
  = inr (gdf_out, n, gb) ->
  Forall (fun g => snd g <> []) gb.
Proof.
  intros H.
  pose proof (strata_inr (Value target_field bins) input fields_to_keep output_samples
                gdf_out n (map snd gb)) as S.
  simpl in S. rewrite H in S. destruct (S eq_refl) as (_ & _ & _ & F).
  rewrite Forall_forall in *. intros g Hg. apply (F (snd g)). now apply in_map.
Qed.

Lemma resample_inr (m : mode) input fields_to_keep replace output_samples
    (w w' : world) (out : GeoDataFrame) :
  resample m input fields_to_keep replace output_samples w = (inr out, w') ->
  exists gdf_out n groups draws,
    strata m input fields_to_keep output_samples = inr (gdf_out, n, groups) /\
    Forall2 (drawn n replace) groups draws /\
    draws <> [] /\
    records out = written m draws.
Proof.
  destruct m as [target_field bins|rows cols]; simpl; intros H.
  - rewrite resample_shapefile_stages in H.
    destruct (value_strata _ _ _ _ _) as [e|[[gdf_out n] gb]] eqn:Es; [discriminate|].
    destruct (sample_groups gb n replace w) as [[e|dfs] w1] eqn:El; [discriminate|].
    destruct (DataFrame.concat dfs) as [e|final] eqn:Ec; [discriminate|].
    inversion H; subst. apply (concat_inr dfs dfs) in Ec. destruct Ec as [Hne ->].
    exists gdf_out, n, (map snd gb), dfs. repeat split; try assumption.
    apply Forall2_map_snd.
    apply (sample_groups_inr gb n replace w w' dfs); [|assumption].
    eapply strata_value_groups; eassumption.
  - rewrite resample_shapefile_spatially_stages in H.
    destruct (spatial_strata _ _ _ _ _) as [e|[[gdf_out n] polygons]] eqn:Es; [discriminate|].
    destruct (sample_cells polygons _ n replace w) as [[e|dfs] w1] eqn:El; [discriminate|].
    destruct (DataFrame.concat dfs) as [e|final] eqn:Ec; [discriminate|].
    inversion H; subst. apply (concat_inr dfs dfs) in Ec. destruct Ec as [Hne ->].
    exists gdf_out, n, (sampled_cells polygons (records gdf_out)), dfs.
    repeat split; try assumption.
    eapply sample_cells_inr; eassumption.
Qed.

Lemma Forall2_lengths (n : Z) (replace : bool) (groups draws : list (list row)) :
  Forall2 (drawn n replace) groups draws ->
  Z.of_nat (List.length (List.concat draws)) = (Z.of_nat (List.length groups) * n)%Z.
Proof.
  induction 1 as [|s d ss ds [Hd _] F IH]; [reflexivity|].
  cbn [List.concat List.length]. rewrite length_app, Nat2Z.inj_add, Nat2Z.inj_succ, IH.
  lia.
Qed.

Lemma written_length (m : mode) (draws : list (list row)) :
  List.length (written m draws) = List.length (List.concat draws).
Proof.
  destruct m; simpl; [|reflexivity].
  apply Permutation_length, sort_index_perm.
Qed.

Lemma written_incl (m : mode) (draws : list (list row)) :
  incl (written m draws) (List.concat draws).
Proof.
  destruct m; simpl; [|apply incl_refl].
  intros x Hx. eapply Permutation_in; [apply sort_index_perm | exact Hx].
Qed.


Lemma sample_groups_log (gb : list (Z * list row)) (n : Z) (replace : bool) (w : world) :
  log (snd (sample_groups gb n replace w)) = log w.
Proof.
  revert w. induction gb as [|[k gr] rest IH]; intros w; [reflexivity|].
  simpl. unfold bind, ret.
  pose proof (sample_log gr n replace w) as L1.
  destruct (DataFrame.sample gr n replace w) as [[e|d] w1]; [exact L1|].
  specialize (IH w1).
  destruct (sample_groups rest n replace w1) as [[e|ds] w2]; simpl in *; congruence.
Qed.

Lemma spatial_strata_grid input rows cols fields_to_keep output_samples gdf_out n polygons :
  spatial_strata input rows cols fields_to_keep output_samples
  = inr (gdf_out, n, polygons) ->
  build_grid (map geometry (records gdf_out)) rows cols = inr polygons.
Proof.
  unfold spatial_strata.
  destruct (filter_fields _ _) as [e|g0]; [discriminate|].
  unfold geometry_column. destruct (_ <? _)%nat; [discriminate|].
  destruct (build_grid _ _ _) as [e|ps] eqn:Eg; [discriminate|].
  destruct (floordiv _ _); [discriminate|]. intros [= <- _ <-]. exact Eg.
Qed.

Lemma Exists_map_snd {A B : Type} (P : B -> Prop) (l : list (A * B)) :
  Exists P (map snd l) -> Exists (fun g => P (snd g)) l.
Proof.
  induction l as [|a t IH]; simpl; intros H; inversion H; subst;
    [now constructor | constructor 2; now apply IH].
Qed.

Lemma resample_insufficient (m : mode) input fields_to_keep output_samples (w : world)
    gdf_out n groups :
  strata m input fields_to_keep output_samples = inr (gdf_out, n, groups) ->
  Exists (fun s => (Z.of_nat (List.length s) < n)%Z) groups ->
  exists w',
    resample m input fields_to_keep false output_samples w
    = (inl (ValueError LargerSampleThanPopulation), w').
Proof.
  intros Hs Hex. destruct m as [target_field bins|rows cols]; simpl in *.
  - destruct (value_strata _ _ _ _ _) as [e|[[g0 n0] gb]] eqn:Es; [discriminate|].
    inversion Hs; subst. clear Hs.
    pose proof (strata_value_groups _ _ _ _ _ _ _ _ Es) as Hg.
    apply Exists_map_snd in Hex.
    destruct (sample_groups_insufficient gb n w Hg Hex) as (w' & El).
    exists w'. now rewrite resample_shapefile_stages, Es, El.
  - destruct (spatial_strata _ _ _ _ _) as [e|[[g0 n0] polygons]] eqn:Es; [discriminate|].
    inversion Hs; subst. clear Hs.
    destruct (sample_cells_insufficient polygons (records gdf_out) n w Hex) as (w' & El).
    exists w'. now rewrite resample_shapefile_spatially_stages, Es, El.
Qed.

(** ** The result depends on the random state only *)








Local Open Scope Q_scope.

(** ** The spatial grid *)

Lemma nth_map_seq {A : Type} (f : nat -> A) (n a i : nat) (d : A) :
  (i < n)%nat -> nth i (map f (seq a n)) d = f (a + i)%nat.
Proof.
  revert a i. induction n as [|n IH]; intros a i Hi; [lia|].
  destruct i as [|i]; simpl; [now rewrite Nat.add_0_r|].
  rewrite IH by lia. f_equal. lia.
Qed.

Lemma linspace_ticks (a b : Q) (n : Z) :
  (1 <= n)%Z -> Numpy.linspace a b (n + 1) = inr (ticks a b n).
Proof.
  intros H. unfold Numpy.linspace, ticks.
  destruct (Z.ltb_spec (n + 1) 0); [lia|].
  replace (Z.to_nat (n + 1)) with (S (Z.to_nat n)) by lia.
  destruct (Z.to_nat n) as [|k] eqn:E; [lia|]. reflexivity.
Qed.

Lemma ticks_length (a b : Q) (n : Z) :
  List.length (ticks a b n) = S (Z.to_nat n).
Proof.
  unfold ticks. rewrite length_app, length_map, length_seq. simpl. lia.
Qed.

(** Line [i] is [a + i * (b - a) / n]. *)
Lemma ticks_nth (a b : Q) (n : Z) (i : nat) :
  (1 <= n)%Z -> (i <= Z.to_nat n)%nat ->
  nth i (ticks a b n) 0 == a + inject_Z (Z.of_nat i) * ((b - a) / inject_Z n).
Proof.
  intros Hn Hi. unfold ticks.
  pose proof (inject_Z_pos n ltac:(lia)) as Pn.
  destruct (Nat.eq_dec i (Z.to_nat n)) as [->|N].
  - rewrite app_nth2; rewrite length_map, length_seq; [|lia].
    rewrite Nat.sub_diag. simpl. rewrite Z2Nat.id by lia. field. lra.
  - rewrite app_nth1 by (rewrite length_map, length_seq; lia).
    rewrite nth_map_seq by lia. simpl.
    replace (n + 1 - 1)%Z with n by lia. reflexivity.
Qed.

Lemma ticks_first (a b : Q) (n : Z) : (1 <= n)%Z -> nth 0 (ticks a b n) 0 == a.
Proof. intros H. rewrite ticks_nth by lia. simpl. unfold Qdiv. ring. Qed.

Lemma ticks_last (a b : Q) (n : Z) : nth (Z.to_nat n) (ticks a b n) 0 = b.
Proof.
  unfold ticks. rewrite app_nth2; rewrite length_map, length_seq; [|lia].
  now rewrite Nat.sub_diag.
Qed.

Lemma ticks_monotone (a b : Q) (n : Z) (i j : nat) :
  (1 <= n)%Z -> a <= b -> (i <= j)%nat -> (j <= Z.to_nat n)%nat ->
  nth i (ticks a b n) 0 <= nth j (ticks a b n) 0.
Proof.
  intros Hn Hab Hij Hj. rewrite !ticks_nth by lia.
  pose proof (inject_Z_pos n ltac:(lia)) as Pn.
  assert (Hd : 0 <= (b - a) / inject_Z n).
  { apply Qle_shift_div_l; [assumption | lra]. }
  assert (Hlt : inject_Z (Z.of_nat i) <= inject_Z (Z.of_nat j)).
  { rewrite <- Zle_Qle. lia. }
  nra.
Qed.

(** Between the first and the last line every number lies between two
    neighbouring lines. *)
Lemma between_lines (f : nat -> Q) (n : nat) (x : Q) :
  (1 <= n)%nat -> f 0%nat <= x -> x <= f n ->
  exists c, (c < n)%nat /\ f c <= x /\ x <= f (S c).
Proof.
  intros Hn H0. induction n as [|k IH]; [lia|]. intros Hx.
  destruct k as [|k'].
  - exists 0%nat. repeat split; [lia | assumption | assumption].
  - destruct (Qlt_le_dec (f (S k')) x) as [G|L].
    + exists (S k'). repeat split; [lia | lra | assumption].
    + destruct (IH ltac:(lia) L) as (c & Hc & H1 & H2).
      exists c. repeat split; [lia | assumption | assumption].
Qed.

(** ** Bounds *)

Lemma fold_Qmin_le (x0 : Q) (l : list Q) :
  fold_right Qmin x0 l <= x0 /\ forall y, In y l -> fold_right Qmin x0 l <= y.
Proof.
  induction l as [|h t [IH1 IH2]]; simpl.
  - split; [lra | intros y []].
  - pose proof (Q.le_min_l h (fold_right Qmin x0 t)).
    pose proof (Q.le_min_r h (fold_right Qmin x0 t)).
    split; [lra|]. intros y [<-|Hy]; [assumption|].
    specialize (IH2 y Hy). lra.
Qed.

Lemma fold_Qmax_ge (x0 : Q) (l : list Q) :
  x0 <= fold_right Qmax x0 l /\ forall y, In y l -> y <= fold_right Qmax x0 l.
Proof.
  induction l as [|h t [IH1 IH2]]; simpl.
  - split; [lra | intros y []].
  - pose proof (Q.le_max_l h (fold_right Qmax x0 t)).
    pose proof (Q.le_max_r h (fold_right Qmax x0 t)).
    split; [lra|]. intros y [<-|Hy]; [assumption|].
    specialize (IH2 y Hy). lra.
Qed.

(** [total_bounds] of a non-empty column is a box around every point. *)
Lemma total_bounds_box (g : list point) :
  g <> [] ->
  exists minx miny maxx maxy,
    total_bounds g = (Some minx, Some miny, Some maxx, Some maxy) /\
    minx <= maxx /\ miny <= maxy /\
    forall p, In p g -> minx <= px p <= maxx /\ miny <= py p <= maxy.
Proof.
  destruct g as [|p0 t]; [congruence|]. intros _. simpl.
  do 4 eexists. split; [reflexivity|].
  destruct (fold_Qmin_le (px p0) (map px t)) as [A1 A2].
  destruct (fold_Qmin_le (py p0) (map py t)) as [B1 B2].
  destruct (fold_Qmax_ge (px p0) (map px t)) as [C1 C2].
  destruct (fold_Qmax_ge (py p0) (map py t)) as [D1 D2].
  split; [lra|]. split; [lra|].
  intros p [<-|Hp].
  - split; split; assumption.
  - split; split;
      [apply A2 | apply C2 | apply B2 | apply D2]; now apply in_map.
Qed.

Lemma consecutive_cons {A : Type} (a b : A) (t : list A) :
  consecutive (a :: b :: t) = (a, b) :: consecutive (b :: t).
Proof. reflexivity. Qed.

Lemma consecutive_lines (l : list Q) :
  consecutive (map Some l)
  = map (fun i => (Some (nth i l 0), Some (nth (S i) l 0))) (seq 0 (List.length l - 1)).
Proof.
  induction l as [|a [|b t] IH]; try reflexivity.
  cbn [map]. rewrite consecutive_cons. cbn [map] in IH. rewrite IH.
  cbn [List.length Nat.sub]. rewrite Nat.sub_0_r.
  change (seq 0 (S (List.length t))) with (0%nat :: seq 1 (List.length t)).
  cbn [map]. f_equal. rewrite <- seq_shift, map_map. reflexivity.
Qed.

Lemma build_polygons_cells (x_grid y_grid : list Q) :
  build_polygons (map Some x_grid) (map Some y_grid)
  = flat_map (fun c => map (cell x_grid y_grid c) (seq 0 (List.length y_grid - 1)))
             (seq 0 (List.length x_grid - 1)).
Proof.
  unfold build_polygons. rewrite !consecutive_lines. rewrite flat_map_concat_map.
  rewrite map_map. rewrite <- flat_map_concat_map.
  apply flat_map_ext. intros c. rewrite map_map. reflexivity.
Qed.

Lemma nth_flat_map_grid {A : Type} (g : nat -> nat -> A) (R C a c r : nat) (d : A) :
  (c < C)%nat -> (r < R)%nat ->
  nth (c * R + r) (flat_map (fun c => map (g c) (seq 0 R)) (seq a C)) d = g (a + c)%nat r.
Proof.
  revert a c. induction C as [|C IH]; intros a c Hc Hr; [lia|].
  cbn [seq flat_map]. destruct c as [|c].
  - rewrite app_nth1 by (rewrite length_map, length_seq; lia).
    rewrite nth_map_seq by lia. now rewrite Nat.add_0_r.
  - rewrite app_nth2; rewrite length_map, length_seq; [|lia].
    replace (S c * R + r - R)%nat with (c * R + r)%nat by lia.
    rewrite IH by lia. f_equal. lia.
Qed.

Section Grid.

Variables minx miny maxx maxy : Q.
Variables rows cols : Z.
Hypothesis x_ordered : minx <= maxx.
Hypothesis y_ordered : miny <= maxy.
Hypothesis rows_positive : (1 <= rows)%Z.
Hypothesis cols_positive : (1 <= cols)%Z.

Let x_grid : list Q := ticks minx maxx cols.
Let y_grid : list Q := ticks miny maxy rows.
Let polygons : list polygon := build_polygons (map Some x_grid) (map Some y_grid).

(** Cell number [c * rows + r] spans column [c] and row [r]: the cells of
    one column follow each other. *)
Lemma polygons_nth (c r : nat) (d : polygon) :
  (c < Z.to_nat cols)%nat -> (r < Z.to_nat rows)%nat ->
  nth (c * Z.to_nat rows + r) polygons d = cell x_grid y_grid c r.
Proof.
  intros Hc Hr. subst polygons. rewrite build_polygons_cells.
  subst x_grid y_grid. rewrite !ticks_length. cbn [Nat.sub]. rewrite !Nat.sub_0_r.
  now rewrite nth_flat_map_grid.
Qed.

Lemma polygons_length : List.length polygons = (Z.to_nat cols * Z.to_nat rows)%nat.
Proof.
  subst polygons. rewrite build_polygons_length, !length_map.
  subst x_grid y_grid. rewrite !ticks_length. lia.
Qed.

Lemma polygons_index (i : nat) :
  (i < List.length polygons)%nat ->
  exists c r, (c < Z.to_nat cols)%nat /\ (r < Z.to_nat rows)%nat /\
              i = (c * Z.to_nat rows + r)%nat.
Proof.
  rewrite polygons_length. intros Hi.
  assert (HR : (0 < Z.to_nat rows)%nat) by lia.
  exists (i / Z.to_nat rows)%nat, (i mod Z.to_nat rows)%nat.
  split; [apply Nat.Div0.div_lt_upper_bound; lia|].
  split; [apply Nat.mod_upper_bound; lia|].
  rewrite (Nat.div_mod_eq i (Z.to_nat rows)) at 1. lia.
Qed.

Lemma within_cell (p : point) (c r : nat) :
  within p (cell x_grid y_grid c r) = true <->
  nth c x_grid 0 < px p /\ px p < nth (S c) x_grid 0 /\
  nth r y_grid 0 < py p /\ py p < nth (S r) y_grid 0.
Proof.
  unfold within, cell. simpl. rewrite !andb_true_iff, !Qltb_spec. tauto.
Qed.

(** A point is within one cell at most. *)
Lemma within_unique (p : point) (c r c' r' : nat) :
  (c < Z.to_nat cols)%nat -> (r < Z.to_nat rows)%nat ->
  (c' < Z.to_nat cols)%nat -> (r' < Z.to_nat rows)%nat ->
  within p (cell x_grid y_grid c r) = true ->
  within p (cell x_grid y_grid c' r') = true ->
  c = c' /\ r = r'.
Proof.
  intros Hc Hr Hc' Hr' W W'. apply within_cell in W, W'.
  destruct W as (X1 & X2 & Y1 & Y2), W' as (X1' & X2' & Y1' & Y2').
  split.
  - destruct (Nat.lt_trichotomy c c') as [L|[E|G]]; [exfalso|assumption|exfalso].
    + pose proof (ticks_monotone minx maxx cols (S c) c' cols_positive x_ordered
                    ltac:(lia) ltac:(lia)). subst x_grid. lra.
    + pose proof (ticks_monotone minx maxx cols (S c') c cols_positive x_ordered
                    ltac:(lia) ltac:(lia)). subst x_grid. lra.
  - destruct (Nat.lt_trichotomy r r') as [L|[E|G]]; [exfalso|assumption|exfalso].
    + pose proof (ticks_monotone miny maxy rows (S r) r' rows_positive y_ordered
                    ltac:(lia) ltac:(lia)). subst y_grid. lra.
    + pose proof (ticks_monotone miny maxy rows (S r') r rows_positive y_ordered
                    ltac:(lia) ltac:(lia)). subst y_grid. lra.
Qed.

(** A point on a grid line is within no cell. *)
Lemma on_line_within_none (p : point) (k c r : nat) :
  (c < Z.to_nat cols)%nat -> (r < Z.to_nat rows)%nat ->
  ((k <= Z.to_nat cols)%nat /\ px p == nth k x_grid 0) \/
  ((k <= Z.to_nat rows)%nat /\ py p == nth k y_grid 0) ->
  within p (cell x_grid y_grid c r) = false.
Proof.
  intros Hc Hr Hon. destruct (within p (cell x_grid y_grid c r)) eqn:W; [|reflexivity].
  exfalso. apply within_cell in W. destruct W as (X1 & X2 & Y1 & Y2).
  destruct Hon as [[Hk E]|[Hk E]].
  - destruct (le_lt_dec k c) as [L|G].
    + pose proof (ticks_monotone minx maxx cols k c cols_positive x_ordered L ltac:(lia)).
      subst x_grid. lra.
    + pose proof (ticks_monotone minx maxx cols (S c) k cols_positive x_ordered
                    ltac:(lia) Hk). subst x_grid. lra.
  - destruct (le_lt_dec k r) as [L|G].
    + pose proof (ticks_monotone miny maxy rows k r rows_positive y_ordered L ltac:(lia)).
      subst y_grid. lra.
    + pose proof (ticks_monotone miny maxy rows (S r) k rows_positive y_ordered
                    ltac:(lia) Hk). subst y_grid. lra.
Qed.

(** Every point of the box lies in the closure of some cell. *)
Lemma box_covered (x y : Q) :
  minx <= x <= maxx -> miny <= y <= maxy ->
  exists c r, (c < Z.to_nat cols)%nat /\ (r < Z.to_nat rows)%nat /\
    nth c x_grid 0 <= x <= nth (S c) x_grid 0 /\
    nth r y_grid 0 <= y <= nth (S r) y_grid 0.
Proof.
  intros [Hx1 Hx2] [Hy1 Hy2].
  destruct (between_lines (fun i => nth i x_grid 0) (Z.to_nat cols) x) as (c & Hc & C1 & C2).
  { lia. }
  { subst x_grid. rewrite ticks_first by lia. assumption. }
  { subst x_grid. rewrite ticks_last. assumption. }
  destruct (between_lines (fun i => nth i y_grid 0) (Z.to_nat rows) y) as (r & Hr & R1 & R2).
  { lia. }
  { subst y_grid. rewrite ticks_first by lia. assumption. }
  { subst y_grid. rewrite ticks_last. assumption. }
  exists c, r. repeat split; assumption.
Qed.

(** Every cell lies in the box. *)
Lemma cell_in_box (c r : nat) :
  (c < Z.to_nat cols)%nat -> (r < Z.to_nat rows)%nat ->
  minx <= nth c x_grid 0 /\ nth (S c) x_grid 0 <= maxx /\
  miny <= nth r y_grid 0 /\ nth (S r) y_grid 0 <= maxy.
Proof.
  intros Hc Hr.
  pose proof (ticks_monotone minx maxx cols 0 c cols_positive x_ordered ltac:(lia) ltac:(lia)) as A.
  pose proof (ticks_monotone minx maxx cols (S c) (Z.to_nat cols) cols_positive x_ordered
                ltac:(lia) ltac:(lia)) as B.
  pose proof (ticks_monotone miny maxy rows 0 r rows_positive y_ordered ltac:(lia) ltac:(lia)) as C.
  pose proof (ticks_monotone miny maxy rows (S r) (Z.to_nat rows) rows_positive y_ordered
                ltac:(lia) ltac:(lia)) as D.
  rewrite ticks_first in A, C by lia. rewrite ticks_last in B, D.
  subst x_grid y_grid. repeat split; assumption.
Qed.

End Grid.

Lemma build_grid_ticks (g : list point) (rows cols : Z) (minx miny maxx maxy : Q) :
  total_bounds g = (Some minx, Some miny, Some maxx, Some maxy) ->
  (1 <= rows)%Z -> (1 <= cols)%Z ->
  build_grid g rows cols
  = inr (build_polygons (map Some (ticks minx maxx cols)) (map Some (ticks miny maxy rows))).
Proof.
  intros Hb Hr Hc. unfold build_grid. rewrite Hb. unfold Numpy.linspace_float.
  now rewrite !linspace_ticks by assumption.
Qed.

(** ** Value bins of a vector with two distinct values *)



Lemma hd_nth0 {A : Type} (l : list A) (d : A) : hd d l = nth 0 l d.
Proof. now destruct l. Qed.

(** ** Degenerate calls *)

Lemma unique_all_nan {A : Type} (l : list A) :
  l <> [] -> Pandas.unique (map (fun _ => NaN) l) = [NaN].
Proof.
  induction l as [|a [|b t] IH]; [congruence | reflexivity|]. intros _.
  change (map (fun _ : A => NaN) (a :: b :: t))
    with (NaN :: map (fun _ : A => NaN) (b :: t)).
  cbn [Pandas.unique]. rewrite IH by discriminate. reflexivity.
Qed.

Lemma bin_labels_no_record (bins : Z) :
  (1 <= bins)%Z -> bin_labels [] bins = inl (ValueError BinEdgesMustBeUnique).
Proof.
  intros Hb. unfold bin_labels, bin_edges. rewrite linspace_positions by assumption.
  unfold Pandas.quantile, Pandas.bins_to_cuts. simpl Numpy.unique. simpl Numpy.sort.
  change (map (Pandas.get_score []) (positions bins))
    with (map (fun _ : Q => NaN) (positions bins)).
  assert (Hp : positions bins <> []).
  { unfold positions. intros E. apply (f_equal (@List.length Q)) in E.
    rewrite length_app in E. simpl in E. lia. }
  rewrite unique_all_nan by assumption. rewrite length_map.
  assert (Hl : (2 <= List.length (positions bins))%nat).
  { unfold positions. rewrite length_app, length_map, length_seq. simpl. lia. }
  destruct (Nat.ltb_spec (List.length [NaN]) (List.length (positions bins))) as [_|G];
    [reflexivity | simpl in G; lia].
Qed.

Lemma bin_labels_nonpositive (target : list Q) (bins : Z) :
  (bins < 0)%Z -> exists e, bin_labels target bins = inl e.
Proof.
  intros Hb. unfold bin_labels, bin_edges, Numpy.linspace.
  destruct (Z.ltb_spec (bins + 1) 0) as [L|G]; [eexists; reflexivity|].
  replace bins with (-1)%Z by lia. simpl. eexists. reflexivity.
Qed.

Lemma value_strata_degenerate input target_field bins fields_to_keep output_samples :
  records input = [] \/ (bins <= 0)%Z ->
  exists e,
    value_strata input target_field bins fields_to_keep output_samples = inl e.
Proof.
  intros Hd. unfold value_strata.
  destruct (filter_fields _ _) as [e|gdf_out] eqn:Ef; [eexists; reflexivity|].
  destruct (filter_fields_records _ _ _ Ef) as [Hr _].
  destruct (target_values _ _) as [e|target] eqn:Et; [eexists; reflexivity|].
  destruct (Z_lt_le_dec bins 0) as [Hneg|Hpos].
  { destruct (bin_labels_nonpositive target bins Hneg) as (e & ->). eexists; reflexivity. }
  destruct (Z.eq_dec bins 0) as [->|Hnz].
  { destruct (bin_labels _ _); [eexists; reflexivity|].
    destruct (set_bin _ _ _); [eexists; reflexivity|].
    unfold floordiv. simpl. eexists; reflexivity. }
  destruct Hd as [Hd|Hd]; [|lia].
  unfold target_values in Et. destruct (has_column _ _); [|discriminate].
  destruct (String.eqb _ _); [discriminate|]. rewrite Hr, Hd in Et. simpl in Et.
  inversion Et; subst. rewrite bin_labels_no_record by lia. eexists; reflexivity.
Qed.


(** ** [filter_fields] and the target column *)

Lemma has_column_In (f : string) (cols : list string) :
  has_column f cols = true <-> In f cols.
Proof.
  unfold has_column. rewrite existsb_exists. split.
  - intros (x & Hx & E). apply String.eqb_eq in E. now subst.
  - intros H. exists f. split; [assumption | apply String.eqb_refl].
Qed.

(** * The claims *)

(** C1 (amended).  Without replacement, a non-empty bin or cell smaller than
    the per-bin quota makes the draw raise numpy's ValueError ("Cannot take a
    larger sample than population when 'replace=False'"), which aborts the
    whole call; the draw is never clamped to the bin's population. *)
Theorem quota_above_population_raises (m : mode) (input : GeoDataFrame)
    (fields_to_keep : list string) (output_samples : option Z) (w : world)
    (gdf_out : GeoDataFrame) (n : Z) (groups : list (list row)) :
  strata m input fields_to_keep output_samples = inr (gdf_out, n, groups) ->
  Exists (fun s => (Z.of_nat (List.length s) < n)%Z) groups ->
  (forall s w0, In s groups -> (Z.of_nat (List.length s) < n)%Z ->
     DataFrame.sample s n false w0 = (inl (ValueError LargerSampleThanPopulation), w0)) /\
  exists w',
    resample m input fields_to_keep false output_samples w
    = (inl (ValueError LargerSampleThanPopulation), w').
Proof.
  intros Hs Hex. split.
  - intros s w0 Hin Hlt. apply sample_too_many; [|assumption].
    destruct (strata_inr _ _ _ _ _ _ _ Hs) as (_ & _ & _ & F).
    rewrite Forall_forall in F. now apply F.
  - eapply resample_insufficient; eassumption.
Qed.

Lemma quota_above_population_raises_witness :
  exists w',
    resample (Value uranium 2) four_sites [uranium] false (Some 6%Z) (fresh generator_a)
    = (inl (ValueError LargerSampleThanPopulation), w').
Proof.
  apply (quota_above_population_raises (Value uranium 2) four_sites [uranium] (Some 6%Z)
           (fresh generator_a) four_sites 3%Z
           [firstn 2 (records four_sites); skipn 2 (records four_sites)]).
  - vm_compute. reflexivity.
  - apply Exists_cons_hd. simpl. lia.
Defined.

Lemma clamping_counterexample :
  fst (resample (Value uranium 2) four_sites [uranium] false (Some 6%Z) (fresh generator_a))
  = inl (ValueError LargerSampleThanPopulation) /\
  written_labels
    (resample (Value uranium 2) four_sites [uranium] false (Some 6%Z) (fresh generator_a))
  = None.
Proof. split; vm_compute; reflexivity. Qed.

(** C2.  A call that returns has drawn, from every non-empty bin or cell,
    exactly [floor(total_samples / declared count)] rows, the declared count
    being [bins] in value mode and [rows * cols] in spatial mode; the output
    has that quota times the number of non-empty strata, nothing being
    redistributed. *)
Theorem quota_is_floor_of_declared_count (m : mode) (input : GeoDataFrame)
    (fields_to_keep : list string) (replace : bool) (output_samples : option Z)
    (w w' : world) (out : GeoDataFrame) :
  resample m input fields_to_keep replace output_samples w = (inr out, w') ->
  exists gdf_out groups draws,
    let quota := (total_samples_of output_samples gdf_out / declared_count m)%Z in
    strata m input fields_to_keep output_samples = inr (gdf_out, quota, groups) /\
    Forall2 (drawn quota replace) groups draws /\
    records out = written m draws /\
    Z.of_nat (List.length (records out)) = (Z.of_nat (List.length groups) * quota)%Z.
Proof.
  intros H.
  destruct (resample_inr _ _ _ _ _ _ _ _ H)
    as (gdf_out & n & groups & draws & Hs & F & _ & Hw).
  destruct (strata_inr _ _ _ _ _ _ _ Hs) as (_ & _ & Hn & _). subst n.
  exists gdf_out, groups, draws. cbv zeta. repeat split; try assumption.
  rewrite Hw, written_length. now apply Forall2_lengths with (replace := replace).
Qed.

Lemma quota_is_floor_of_declared_count_witness :
  exists groups : list (list row),
    map (@List.length row) groups = [10; 10; 10; 10]%nat /\
    exists gdf_out,
      strata (Value uranium 4) forty_sites [uranium] (Some 39%Z) = inr (gdf_out, 9%Z, groups) /\
      List.length
        (records (frame_of (resample (Value uranium 4) forty_sites [uranium] true (Some 39%Z)
                                     (fresh generator_a)))) = 36%nat.
Proof.
  pose (r := resample (Value uranium 4) forty_sites [uranium] true (Some 39%Z)
                      (fresh generator_a)).
  assert (H : r = (inr (frame_of r), snd r)) by (vm_compute; reflexivity).
  destruct (quota_is_floor_of_declared_count _ _ _ _ _ _ _ _ H)
    as (gdf_out & groups & draws & Hs & _ & _ & Hl).
  exists groups.
  assert (Hg : map (@List.length row) groups = [10; 10; 10; 10]%nat
               /\ gdf_out = forty_sites).
  { vm_compute in Hs. injection Hs as E1 E2. subst. split; reflexivity. }
  destruct Hg as [Hg ->]. split; [exact Hg|]. exists forty_sites.
  split; [exact Hs|].
  apply (f_equal (@List.length nat)) in Hg. rewrite length_map in Hg.
  simpl in Hg. rewrite Hg in Hl.
  change (total_samples_of (Some 39%Z) forty_sites / declared_count (Value uranium 4))%Z
    with 9%Z in Hl.
  fold r. lia.
Defined.

(** C3 (amended).  For a non-empty dataset and [rows, cols >= 1] the grid
    has [rows * cols] rectangular cells cut by [cols + 1] evenly spaced
    vertical and [rows + 1] evenly spaced horizontal lines over the bounding
    box; the cells are enumerated column by column (cell [c * rows + r] is
    column [c], row [r]); their closures cover the box and lie in it; a
    point is within at most one cell, and a point on a grid line (so on a
    boundary shared by cells) is within none. *)
Theorem spatial_grid_partition (g : list point) (rows cols : Z) :
  g <> [] -> (1 <= rows)%Z -> (1 <= cols)%Z ->
  exists minx miny maxx maxy x_grid y_grid polygons,
    total_bounds g = (Some minx, Some miny, Some maxx, Some maxy) /\
    build_grid g rows cols = inr polygons /\
    Z.of_nat (List.length polygons) = (rows * cols)%Z /\
    (forall c, (c <= Z.to_nat cols)%nat ->
       nth c x_grid 0 == minx + inject_Z (Z.of_nat c) * ((maxx - minx) / inject_Z cols)) /\
    (forall r, (r <= Z.to_nat rows)%nat ->
       nth r y_grid 0 == miny + inject_Z (Z.of_nat r) * ((maxy - miny) / inject_Z rows)) /\
    (forall c r d, (c < Z.to_nat cols)%nat -> (r < Z.to_nat rows)%nat ->
       nth (c * Z.to_nat rows + r) polygons d = cell x_grid y_grid c r) /\
    (forall x y, minx <= x <= maxx -> miny <= y <= maxy ->
       exists c r, (c < Z.to_nat cols)%nat /\ (r < Z.to_nat rows)%nat /\
         nth c x_grid 0 <= x <= nth (S c) x_grid 0 /\
         nth r y_grid 0 <= y <= nth (S r) y_grid 0) /\
    (forall c r, (c < Z.to_nat cols)%nat -> (r < Z.to_nat rows)%nat ->
       minx <= nth c x_grid 0 /\ nth (S c) x_grid 0 <= maxx /\
       miny <= nth r y_grid 0 /\ nth (S r) y_grid 0 <= maxy) /\
    (forall p i j d, (i < List.length polygons)%nat -> (j < List.length polygons)%nat ->
       within p (nth i polygons d) = true -> within p (nth j polygons d) = true ->
       i = j) /\
    (forall p k q,
       ((k <= Z.to_nat cols)%nat /\ px p == nth k x_grid 0) \/
       ((k <= Z.to_nat rows)%nat /\ py p == nth k y_grid 0) ->
       In q polygons -> within p q = false).
Proof.
  intros Hg Hr Hc.
  destruct (total_bounds_box g Hg) as (minx & miny & maxx & maxy & Hb & Hx & Hy & _).
  exists minx, miny, maxx, maxy, (ticks minx maxx cols), (ticks miny maxy rows).
  exists (build_polygons (map Some (ticks minx maxx cols)) (map Some (ticks miny maxy rows))).
  split; [exact Hb|].
  split; [apply build_grid_ticks; assumption|].
  pose proof (polygons_length minx miny maxx maxy rows cols Hr Hc) as Hlen.
  split; [rewrite Hlen; nia|].
  split; [intros c Hcc; now apply ticks_nth|].
  split; [intros r Hrr; now apply ticks_nth|].
  split; [intros c r d Hcc Hrr; now apply polygons_nth|].
  split; [intros x y Bx By; now apply box_covered|].
  split; [intros c r Hcc Hrr; now apply cell_in_box|].
  split.
  - intros p i j d Hi Hj Wi Wj.
    destruct (polygons_index minx miny maxx maxy rows cols Hr Hc i Hi) as (c & r & Hcc & Hrr & ->).
    destruct (polygons_index minx miny maxx maxy rows cols Hr Hc j Hj)
      as (c' & r' & Hcc' & Hrr' & ->).
    rewrite polygons_nth in Wi, Wj by assumption.
    destruct (within_unique minx miny maxx maxy rows cols Hx Hy Hr Hc p c r c' r')
      as [-> ->]; auto.
  - intros p k q Hon Hq.
    destruct (In_nth _ _ q Hq) as (i & Hi & <-).
    destruct (polygons_index minx miny maxx maxy rows cols Hr Hc i Hi) as (c & r & Hcc & Hrr & ->).
    rewrite polygons_nth by assumption.
    eapply on_line_within_none; eassumption.
Qed.

Lemma spatial_grid_partition_witness :
  exists polygons,
    build_grid (map geometry (records square_sites)) 2 2 = inr polygons /\
    Z.of_nat (List.length polygons) = 4%Z.
Proof.
  destruct (spatial_grid_partition (map geometry (records square_sites)) 2 2)
    as (minx & miny & maxx & maxy & x_grid & y_grid & polygons & _ & Hb & Hl & _).
  - discriminate.
  - lia.
  - lia.
  - exists polygons. split; [exact Hb | exact Hl].
Defined.

Lemma shared_corner_counterexample :
  exists polygons,
    build_grid (map geometry (records corner_sites)) 2 2 = inr polygons /\
    match nth_error polygons 1 with
    | Some p => polygon_is p 0 5 5 10 = true
    | None => False
    end /\
    existsb (within (Point 5 5)) polygons = false.
Proof. eexists. split; [reflexivity|]. split; vm_compute; reflexivity. Qed.

















(** C10.  When [target_field] is not among [fields_to_keep] the value-mode
    call raises, whatever the input holds: [filter_fields] keeps only the
    geometry column and the listed fields, so reading the target column
    raises KeyError (or [filter_fields] itself raises RuntimeError for a
    listed field the input lacks).  The frame [filter_fields] returns always
    starts with the geometry column. *)
Theorem target_field_must_be_kept (input : GeoDataFrame) (target_field : string)
    (bins : Z) (fields_to_keep : list string) (replace : bool)
    (output_samples : option Z) (w : world) :
  ~ In target_field fields_to_keep ->
  (exists e,
     resample_shapefile input target_field bins fields_to_keep replace output_samples w
     = (inl e, w) /\
     (target_field <> GEOMETRY ->
      e = KeyError target_field \/ exists f, e = RuntimeError f)) /\
  (forall gdf_out, filter_fields fields_to_keep input = inr gdf_out ->
     target_field <> GEOMETRY -> ~ In target_field (columns gdf_out)) /\
  (forall fields gdf_out, filter_fields fields input = inr gdf_out ->
     hd_error (columns gdf_out) = Some GEOMETRY /\ records gdf_out = records input).
Proof.
  intros Hnot. split; [|split].
  - rewrite resample_shapefile_stages. unfold value_strata.
    destruct (filter_fields _ _) as [e|gdf_out] eqn:Ef.
    { exists e. split; [reflexivity|]. intros _. right.
      unfold filter_fields in Ef. destruct (find _ _) as [f|]; [|discriminate].
      inversion Ef. now exists f. }
    destruct (filter_fields_records _ _ _ Ef) as [_ Hc].
    unfold target_values. rewrite Hc.
    destruct (has_column target_field (GEOMETRY :: fields_to_keep)) eqn:Eh.
    + apply has_column_In in Eh. destruct Eh as [Eg|Hin]; [|contradiction].
      subst target_field. rewrite String.eqb_refl.
      exists TypeError. split; [reflexivity | congruence].
    + exists (KeyError target_field). split; [reflexivity | now left].
  - intros gdf_out Hf Hg Hin. destruct (filter_fields_records _ _ _ Hf) as [_ Hc].
    rewrite Hc in Hin. destruct Hin as [E|Hin]; [now symmetry in E | contradiction].
  - intros fields gdf_out Hf. destruct (filter_fields_records _ _ _ Hf) as [Hr Hc].
    rewrite Hc. split; [reflexivity | assumption].
Qed.

Lemma target_field_must_be_kept_witness :
  exists e,
    resample_shapefile four_sites uranium 2 [] true None (fresh generator_a)
    = (inl e, fresh generator_a).
Proof.
  destruct (target_field_must_be_kept four_sites uranium 2 [] true None (fresh generator_a))
    as ((e & H & _) & _).
  - intros [].
  - exists e. exact H.
Defined.

(** * Further properties of the code *)

Local Close Scope Q_scope.

(** ** [filter_fields] and [strip_shapefile] *)

Lemma find_first {A : Type} (p : A -> bool) (l : list A) (x : A) :
  find p l = Some x ->
  exists before after,
    l = before ++ x :: after /\ p x = true /\ forall y, In y before -> p y = false.
Proof.
  induction l as [|h t IH]; simpl; [discriminate|].
  destruct (p h) eqn:E.
  - intros [= <-]. exists [], t. repeat split; [assumption | intros y []].
  - intros H. destruct (IH H) as (before & after & -> & Hx & Hb).
    exists (h :: before), after. repeat split; [assumption|].
    intros y [<-|Hy]; [assumption | now apply Hb].
Qed.

Lemma has_column_false (f : string) (cols : list string) :
  has_column f cols = false <-> ~ In f cols.
Proof.
  rewrite <- has_column_In. destruct (has_column f cols); split; congruence.
Qed.

(** X1.  [strip_shapefile] reaches [to_file] exactly when the input has the
    geometry column and every field to keep; the frame it hands over has
    these columns, in that order, and all records of the input in their
    order. *)
Theorem strip_shapefile_keeps_records (input : GeoDataFrame) (fields_to_keep : list string) :
  (forall f, In f (GEOMETRY :: fields_to_keep) -> In f (columns input)) <->
  strip_shapefile input fields_to_keep
  = inr (Frame (GEOMETRY :: fields_to_keep) (records input)).
Proof.
  unfold strip_shapefile, filter_fields. split.
  - intros H.
    destruct (find _ (GEOMETRY :: fields_to_keep)) as [f|] eqn:E; [|reflexivity].
    apply find_some in E. destruct E as [Hin Hf].
    apply negb_true_iff, has_column_false in Hf. exfalso. apply Hf, H, Hin.
  - destruct (find _ (GEOMETRY :: fields_to_keep)) as [f|] eqn:E; [discriminate|].
    intros _ f Hin. pose proof (find_none _ _ E f Hin) as Hf.
    apply negb_false_iff, has_column_In in Hf. exact Hf.
Qed.

(** X2.  When [filter_fields] raises, the error is RuntimeError for the
    first name, in the order geometry then [fields_to_keep], that the input
    lacks; every name before it is a column of the input. *)
Theorem filter_fields_reports_first_missing (input : GeoDataFrame)
    (fields_to_keep : list string) (e : exn) :
  filter_fields fields_to_keep input = inl e ->
  exists before f after,
    GEOMETRY :: fields_to_keep = before ++ f :: after /\
    e = RuntimeError f /\ ~ In f (columns input) /\
    forall g, In g before -> In g (columns input).
Proof.
  unfold filter_fields.
  destruct (find _ (GEOMETRY :: fields_to_keep)) as [f|] eqn:E; [|discriminate].
  intros [= <-]. destruct (find_first _ _ _ E) as (before & after & Hl & Hf & Hb).
  exists before, f, after. split; [exact Hl|]. split; [reflexivity|]. split.
  - now apply has_column_false, negb_true_iff.
  - intros g Hg. apply has_column_In, negb_false_iff. now apply Hb.
Qed.

Lemma filter_fields_reports_first_missing_witness :
  exists before f after,
    GEOMETRY :: ["uranium"; "thorium"; "potassium"]%string = before ++ f :: after /\
    RuntimeError "thorium" = RuntimeError f /\ ~ In f (columns four_sites) /\
    forall g, In g before -> In g (columns four_sites).
Proof.
  apply (filter_fields_reports_first_missing four_sites
           ["uranium"; "thorium"; "potassium"]%string (RuntimeError "thorium")).
  reflexivity.
Defined.

Local Open Scope Q_scope.

(** ** Labels of a vector that could be binned *)

Lemma existsb_same_repeat (v : Q) (n : nat) :
  existsb (float_same (Some v)) (map Some (repeat v (S n))) = true.
Proof. simpl. now rewrite Qeq_bool_refl. Qed.

Lemma unique_repeat (v : Q) (n : nat) :
  (List.length (Pandas.unique (map Some (repeat v n))) <= 1)%nat.
Proof.
  induction n as [|n IH]; simpl; [lia|].
  destruct n as [|n]; [simpl; lia|].
  now rewrite existsb_same_repeat.
Qed.

(** The edges of a vector with a single value are rejected. *)
Lemma bin_labels_single (target : list Q) (bins : Z) :
  target <> [] -> (1 <= bins)%Z -> List.length (Numpy.unique target) = 1%nat ->
  bin_labels target bins = inl (ValueError BinEdgesMustBeUnique).
Proof.
  intros Hne Hb H1. unfold bin_labels. rewrite bin_edges_edges_of by assumption.
  rewrite edges_of_single by assumption.
  unfold Pandas.bins_to_cuts.
  pose proof (unique_repeat (nth 0 (Numpy.unique target) 0) (Z.to_nat (bins + 1))) as Hu.
  rewrite length_map, repeat_length.
  destruct (Nat.ltb_spec
              (List.length (Pandas.unique (map Some (repeat (nth 0 (Numpy.unique target) 0)
                                                            (Z.to_nat (bins + 1))))))
              (Z.to_nat (bins + 1))) as [_|G]; [reflexivity | lia].
Qed.

(** The labels of a vector with two values or more. *)
Lemma bin_labels_label_of (target : list Q) (bins : Z) :
  (1 <= bins)%Z -> (2 <= List.length (Numpy.unique target))%nat ->
  bin_labels target bins
  = inr (map (label_of (edges_of (Numpy.unique target) bins)) target).
Proof.
  intros Hb H2.
  assert (Hne : target <> []) by (intros ->; simpl in H2; lia).
  unfold bin_labels. rewrite bin_edges_edges_of by assumption.
  apply bins_to_cuts_increasing.
  - apply edges_of_increasing; try assumption. apply unique_sorted.
  - intros E. apply (f_equal (@List.length Q)) in E.
    rewrite edges_of_length in E by assumption. simpl in E. lia.
Qed.

(** Whenever the labels could be computed for [bins >= 1], the vector has
    two distinct values at least. *)
Lemma bin_labels_inr_distinct (target : list Q) (bins : Z) (labels : list (option Z)) :
  (1 <= bins)%Z -> bin_labels target bins = inr labels ->
  (2 <= List.length (Numpy.unique target))%nat.
Proof.
  intros Hb H.
  destruct target as [|x t].
  { rewrite bin_labels_no_record in H by assumption. discriminate. }
  pose proof (unique_nonempty (x :: t) ltac:(discriminate)) as Hu.
  pose proof (nonempty_length _ Hu) as Hl.
  destruct (Nat.eq_dec (List.length (Numpy.unique (x :: t))) 1) as [E|N]; [|lia].
  rewrite bin_labels_single in H; [discriminate | discriminate | assumption | assumption].
Qed.

Section LabelOrder.

Variable edges : list Q.
Variable bins : Z.
Hypothesis edges_increasing : StronglySorted Qlt edges.
Hypothesis edges_length : List.length edges = Z.to_nat (bins + 1).
Hypothesis bins_positive : (1 <= bins)%Z.


End LabelOrder.

Local Close Scope Q_scope.

(** ** The groups of [groupby] *)

Lemma sorted_Z_NoDup (l : list Z) : StronglySorted Z.lt l -> NoDup l.
Proof.
  induction 1 as [|h t St IH Fa]; constructor; [|assumption].
  intros Hin. rewrite Forall_forall in Fa. specialize (Fa h Hin). lia.
Qed.

Lemma sorted_Z_range_length (l : list Z) (a n : Z) :
  StronglySorted Z.lt l -> (forall x, In x l -> (a <= x < a + n)%Z) ->
  (Z.of_nat (List.length l) <= Z.max 0 n)%Z.
Proof.
  intros S. revert a n. induction S as [|h t St IH Fa]; intros a n H; simpl List.length.
  - lia.
  - rewrite Forall_forall in Fa.
    assert (Hh : (a <= h < a + n)%Z) by (apply H; now left).
    specialize (IH (h + 1)%Z (a + n - (h + 1))%Z).
    assert (Ht : forall x, In x t -> (h + 1 <= x < h + 1 + (a + n - (h + 1)))%Z).
    { intros x Hx. specialize (Fa x Hx). specialize (H x (or_intror Hx)). lia. }
    specialize (IH Ht). lia.
Qed.

Lemma flat_map_nil {A B : Type} (l : list A) : flat_map (fun _ : A => @nil B) l = [].
Proof. induction l; simpl; auto. Qed.

Section Partition.

Import DataFrame.

Lemma flat_map_insert (x : row * option Z) (kx : Z) (g : Z -> list (row * option Z))
    (keys : list Z) :
  NoDup keys -> In kx keys ->
  Permutation (flat_map (fun k => if (kx =? k)%Z then x :: g k else g k) keys)
              (x :: flat_map g keys).
Proof.
  induction 1 as [|k0 ks Hnot Hnd IH]; intros Hin; [destruct Hin|]. simpl.
  destruct (Z.eqb_spec kx k0) as [->|N].
  - assert (E : flat_map (fun k => if (k0 =? k)%Z then x :: g k else g k) ks
                = flat_map g ks).
    { clear IH Hin Hnd. induction ks as [|k ks IHk]; [reflexivity|]. simpl.
      destruct (Z.eqb_spec k0 k) as [->|N]; [exfalso; apply Hnot; now left|].
      rewrite IHk; [reflexivity|]. intros H. apply Hnot. now right. }
    rewrite E. reflexivity.
  - destruct Hin as [->|Hin]; [congruence|].
    rewrite (IH Hin). symmetry. apply Permutation_middle.
Qed.

Lemma groups_partition (df : list (row * option Z)) (keys : list Z) :
  NoDup keys ->
  (forall rl, In rl df -> exists k, snd rl = Some k /\ In k keys) ->
  Permutation (flat_map (fun k => filter (in_group k) df) keys) df.
Proof.
  intros Hnd. induction df as [|x t IH]; intros H.
  - simpl. now rewrite flat_map_nil.
  - destruct (H x (or_introl eq_refl)) as (kx & Ex & Hk).
    assert (E : forall k, filter (in_group k) (x :: t)
                          = if (kx =? k)%Z then x :: filter (in_group k) t
                            else filter (in_group k) t).
    { intros k. simpl. unfold in_group at 1. now rewrite Ex. }
    rewrite (flat_map_ext _ _ E).
    rewrite flat_map_insert by assumption.
    constructor. apply IH. intros rl Hrl. apply H. now right.
Qed.

(** When no row is labelled NaN the groups hold every row of the frame once. *)
Lemma groupby_partition (df : list (row * option Z)) :
  (forall rl, In rl df -> snd rl <> None) ->
  Permutation (List.concat (map snd (groupby df))) (map fst df).
Proof.
  intros H. unfold groupby. rewrite map_map. simpl.
  rewrite <- flat_map_concat_map.
  assert (E : flat_map (fun k => map fst (filter (in_group k) df))
                       (group_keys (map snd df))
              = map fst (flat_map (fun k => filter (in_group k) df)
                                  (group_keys (map snd df)))).
  { induction (group_keys (map snd df)) as [|k ks IH]; [reflexivity|].
    simpl. now rewrite map_app, IH. }
  rewrite E. apply Permutation_map. apply groups_partition.
  - apply sorted_Z_NoDup, group_keys_sorted.
  - intros rl Hrl. destruct (snd rl) as [k|] eqn:Ek; [|now apply H in Hrl].
    exists k. split; [reflexivity|]. apply group_keys_In_inv.
    rewrite <- Ek. now apply in_map.
Qed.

Lemma groupby_keys (df : list (row * option Z)) :
  map fst (groupby df) = group_keys (map snd df).
Proof. unfold groupby. rewrite map_map. simpl. apply map_id. Qed.

End Partition.

(** ** What [resample_shapefile] has computed when it starts to draw *)

Lemma combine_map_fst {A B : Type} (l : list A) (f : A -> B) :
  map fst (combine l (map f l)) = l.
Proof. induction l; simpl; congruence. Qed.

Lemma value_strata_inr input target_field bins fields_to_keep output_samples gdf_out n gb :
  value_strata input target_field bins fields_to_keep output_samples
  = inr (gdf_out, n, gb) ->
  let target := map (fun r => value r target_field) (records input) in
  let edges := edges_of (Numpy.unique target) bins in
  filter_fields fields_to_keep input = inr gdf_out /\
  (1 <= bins)%Z /\
  n = (total_samples_of output_samples gdf_out / bins)%Z /\
  (2 <= List.length (Numpy.unique target))%nat /\
  bin_labels target bins = inr (map (label_of edges) target) /\
  gb = DataFrame.groupby (combine (records input) (map (label_of edges) target)).
Proof.
  intros H.
  assert (Hb : (1 <= bins)%Z).
  { destruct (Z_le_gt_dec bins 0) as [L|G]; [|lia].
    destruct (value_strata_degenerate input target_field bins fields_to_keep
                output_samples (or_intror L)) as (e & He).
    congruence. }
  unfold value_strata in H.
  destruct (filter_fields _ _) as [e|g0] eqn:Ef; [discriminate|].
  destruct (filter_fields_records _ _ _ Ef) as [Hr _].
  destruct (target_values _ _) as [e|target] eqn:Et; [discriminate|].
  destruct (bin_labels _ _) as [e|labels] eqn:El; [discriminate|].
  destruct (set_bin _ _ _) as [e|binned] eqn:Eb; [discriminate|].
  destruct (floordiv _ _) as [e|q] eqn:Eq; [discriminate|].
  destruct (group_by_bin _ _) as [e|gb0] eqn:Eg; [discriminate|].
  inversion H; subst. clear H.
  apply floordiv_inr in Eq. destruct Eq as [_ ->].
  unfold target_values in Et. destruct (has_column _ _); [|discriminate].
  destruct (String.eqb _ _); [discriminate|]. inversion Et; subst target. clear Et.
  rewrite Hr in *.
  pose proof (bin_labels_inr_distinct _ _ _ Hb El) as H2.
  rewrite bin_labels_label_of in El by assumption. inversion El; subst labels.
  unfold set_bin in Eb. destruct (_ <? _)%nat; [discriminate|]. inversion Eb; subst.
  unfold group_by_bin in Eg. destruct (_ <? _)%nat; [discriminate|]. inversion Eg; subst.
  cbv zeta. rewrite Hr. repeat split; try assumption; try reflexivity.
  now apply bin_labels_label_of.
Qed.

(** The label of each value of the vector itself. *)
Lemma label_of_target (target : list Q) (bins : Z) (x : Q) :
  (1 <= bins)%Z -> (2 <= List.length (Numpy.unique target))%nat -> In x target ->
  exists b, label_of (edges_of (Numpy.unique target) bins) x = Some b /\
            (0 <= b < bins)%Z.
Proof.
  intros Hb H2 Hx.
  assert (Hne : target <> []) by (intros ->; destruct Hx).
  pose proof (unique_sorted target) as Hs.
  pose proof (unique_nonempty target Hne) as Hu.
  destruct (label_of_in_range (edges_of (Numpy.unique target) bins) bins)
    with (x := x) as (b & E & R & _).
  - now apply edges_of_increasing.
  - now apply edges_of_length.
  - assumption.
  - rewrite <- hd_nth0, edges_of_hd by assumption. now apply unique_minimum.
  - rewrite edges_of_last. now apply unique_maximum.
  - exists b. split; assumption.
Qed.

(** ** Draws without replacement *)

Section Distinct.

Import Mtrand.

Lemma remove_nth_NoDup {A : Type} (i : nat) (l : list A) :
  NoDup l -> NoDup (remove_nth i l).
Proof.
  intros H. revert i. induction H as [|h t Hnot Hnd IH]; intros i.
  - destruct i; constructor.
  - destruct i as [|j]; simpl; [assumption|].
    constructor; [|apply IH]. intros Hin. apply Hnot.
    eapply remove_nth_incl, Hin.
Qed.

Lemma remove_nth_not_In {A : Type} (i : nat) (l : list A) (d : A) :
  NoDup l -> (i < List.length l)%nat -> ~ In (nth i l d) (remove_nth i l).
Proof.
  intros H. revert i. induction H as [|h t Hnot Hnd IH]; intros i Hi; simpl in Hi; [lia|].
  destruct i as [|j]; simpl; [assumption|].
  intros [E|Hin].
  - apply Hnot. rewrite E. apply nth_In. lia.
  - apply (IH j); [lia | assumption].
Qed.

Lemma shuffle_NoDup (n : nat) (pool : list nat) (rs : RandomState) :
  List.length pool = n -> NoDup pool -> NoDup (fst (shuffle n pool rs)).
Proof.
  revert pool rs. induction n as [|k IH]; intros pool rs Hlen Hnd; simpl;
    [constructor|].
  assert (Hj : (Nat.modulo (raw rs (pos rs)) (List.length pool)
                < List.length pool)%nat) by (apply Nat.mod_upper_bound; lia).
  pose proof (shuffle_spec k (remove_nth (Nat.modulo (raw rs (pos rs)) (List.length pool)) pool)
                (Random (raw rs) (S (pos rs)))) as Sp.
  specialize (IH (remove_nth (Nat.modulo (raw rs (pos rs)) (List.length pool)) pool)
                 (Random (raw rs) (S (pos rs)))).
  destruct (shuffle k _ _) as [l rs2]. simpl in *.
  destruct Sp as [_ Hincl]; [rewrite remove_nth_length; lia|].
  constructor.
  - intros Hin. apply Hincl in Hin. revert Hin. now apply remove_nth_not_In.
  - apply IH; [rewrite remove_nth_length; lia | now apply remove_nth_NoDup].
Qed.

Lemma firstn_NoDup {A : Type} (n : nat) (l : list A) : NoDup l -> NoDup (firstn n l).
Proof.
  intros H. revert n. induction H as [|h t Hnot Hnd IH]; intros [|n]; simpl;
    try constructor; [|apply IH].
  intros Hin. apply Hnot. eapply In_firstn, Hin.
Qed.

(** The positions [choice] draws without replacement are distinct. *)
Lemma choice_distinct (pop_size size : nat) (rs rs' : RandomState) (idx : list nat) :
  choice pop_size size false rs = (inr idx, rs') -> NoDup idx.
Proof.
  unfold choice. destruct (pop_size =? 0)%nat; [discriminate|].
  destruct (pop_size <? size)%nat; [discriminate|].
  unfold permutation.
  pose proof (shuffle_NoDup pop_size (seq 0 pop_size) rs (length_seq _ _)
                (seq_NoDup _ _)) as H.
  destruct (shuffle pop_size (seq 0 pop_size) rs) as [p rs2]. simpl in H.
  intros [= <- _]. now apply firstn_NoDup.
Qed.

End Distinct.

Lemma labels_injective (df : list row) (r r' : row) :
  NoDup (map label df) -> In r df -> In r' df -> label r = label r' -> r = r'.
Proof.
  induction df as [|h t IH]; simpl; intros Hnd Hr Hr' E; [destruct Hr|].
  inversion Hnd as [|? ? Hnot Hnd']; subst.
  destruct Hr as [<-|Hr], Hr' as [<-|Hr'].
  - reflexivity.
  - exfalso. apply Hnot. rewrite E. now apply in_map.
  - exfalso. apply Hnot. rewrite <- E. now apply in_map.
  - now apply IH.
Qed.

Lemma take_distinct (locs : list nat) (df l : list row) :
  NoDup locs -> NoDup (map label df) -> DataFrame.take locs df = inr l ->
  NoDup (map label l).
Proof.
  intros Hl Hd. revert l. induction Hl as [|i t Hnot Hnd IH]; intros l; simpl.
  - intros [= <-]. constructor.
  - destruct (nth_error df i) as [r|] eqn:Ei; [|discriminate].
    destruct (DataFrame.take t df) as [e|l'] eqn:Et; [discriminate|].
    intros [= <-]. simpl. constructor; [|now apply IH].
    intros Hin. apply in_map_iff in Hin. destruct Hin as (r' & E & Hr').
    assert (Hpos : exists j, In j t /\ nth_error df j = Some r').
    { clear IH Hnot Hnd. revert l' Et Hr'. induction t as [|j t IHt]; intros l' Et Hr'.
      - simpl in Et. inversion Et; subst. destruct Hr'.
      - simpl in Et. destruct (nth_error df j) as [rj|] eqn:Ej; [|discriminate].
        destruct (DataFrame.take t df) as [e|l''] eqn:Et'; [discriminate|].
        inversion Et; subst. destruct Hr' as [<-|Hr'].
        + exists j. split; [now left | assumption].
        + destruct (IHt _ eq_refl Hr') as (j' & Hj' & E'). exists j'. split; [now right | assumption]. }
    destruct Hpos as (j & Hj & Ej).
    assert (r' = r).
    { apply (labels_injective df); try assumption;
        eapply nth_error_In; eassumption. }
    subst r'. apply Hnot.
    assert (i = j); [|now subst].
    assert (Hnd' : NoDup df) by (eapply NoDup_map_inv; eassumption).
    eapply NoDup_nth_error; try eassumption.
    + apply nth_error_Some. congruence.
    + congruence.
Qed.

(** A draw without replacement holds no record twice. *)
Lemma sample_distinct (df d : list row) (n : Z) (w w' : world) :
  NoDup (map label df) -> DataFrame.sample df n false w = (inr d, w') ->
  NoDup (map label d).
Proof.
  intros Hd. unfold DataFrame.sample. destruct (n <? 0)%Z; [discriminate|].
  destruct (Mtrand.choice _ _ _ _) as [[e|locs] rs] eqn:Ec; [discriminate|].
  intros H. inversion H as [[Ht Hw]].
  eapply take_distinct; [eapply choice_distinct; eassumption | eassumption | eassumption].
Qed.

Lemma NoDup_app_inv {A : Type} (l1 l2 : list A) :
  NoDup (l1 ++ l2) -> NoDup l1 /\ NoDup l2 /\ forall a, In a l1 -> ~ In a l2.
Proof.
  intros H. split; [eapply NoDup_app_remove_r, H|].
  split; [eapply NoDup_app_remove_l, H|].
  induction l1 as [|h t IH]; simpl in *; [intros a []|].
  inversion H as [|? ? Hnot Hnd]; subst.
  intros a [<-|Ha] Hin; [apply Hnot, in_or_app; now right | now apply (IH Hnd a)].
Qed.

Lemma Forall2_In_right {A B : Type} (P : A -> B -> Prop) (l : list A) (l' : list B) (y : B) :
  Forall2 P l l' -> In y l' -> exists x, In x l /\ P x y.
Proof.
  induction 1 as [|a b l l' Hab F IH]; intros Hy; [destruct Hy|].
  destruct Hy as [<-|Hy]; [exists a; split; [now left | assumption]|].
  destruct (IH Hy) as (x & Hx & Px). exists x. split; [now right | assumption].
Qed.

(** Draws without replacement from strata that share no record share no
    record. *)
Lemma draws_distinct (groups draws : list (list row)) :
  NoDup (map label (List.concat groups)) ->
  Forall2 (fun s d => incl d s /\ NoDup (map label d)) groups draws ->
  NoDup (map label (List.concat draws)).
Proof.
  intros Hnd F. induction F as [|s d ss ds [Hi Hd] F IH]; simpl; [constructor|].
  simpl in Hnd. rewrite map_app in *. apply NoDup_app_inv in Hnd.
  destruct Hnd as (Hs & Hss & Hdisj).
  apply NoDup_app; [assumption | now apply IH|].
  intros x Hx Hx'. apply (Hdisj x).
  - apply in_map_iff in Hx. destruct Hx as (r & <- & Hr). apply in_map, Hi, Hr.
  - apply in_map_iff in Hx'. destruct Hx' as (r & <- & Hr). apply in_map.
    apply in_concat in Hr. destruct Hr as (d' & Hd' & Hr).
    apply in_concat.
    destruct (Forall2_In_right _ _ _ _ F Hd') as (s' & Hs' & [Hi' _]).
    exists s'. split; [assumption | now apply Hi'].
Qed.

Local Open Scope Q_scope.

(** ** What [resample_shapefile_spatially] has computed when it starts to draw *)

Lemma spatial_strata_inr input rows cols fields_to_keep output_samples gdf_out n polygons :
  spatial_strata input rows cols fields_to_keep output_samples
  = inr (gdf_out, n, polygons) ->
  filter_fields fields_to_keep input = inr gdf_out /\
  (1 <= rows)%Z /\ (1 <= cols)%Z /\
  n = (total_samples_of output_samples gdf_out / (rows * cols))%Z /\
  build_grid (map geometry (records input)) rows cols = inr polygons.
Proof.
  intros H.
  pose proof (spatial_strata_grid _ _ _ _ _ _ _ _ H) as Eg.
  unfold spatial_strata in H.
  destruct (filter_fields _ _) as [e|g0] eqn:Ef; [discriminate|].
  destruct (filter_fields_records _ _ _ Ef) as [Hr _].
  destruct (geometry_column _) as [e|g]; [discriminate|].
  destruct (build_grid _ _ _) as [e|ps] eqn:Eb; [discriminate|].
  destruct (floordiv _ _) as [e|q] eqn:Eq; [discriminate|].
  inversion H; subst. clear H. apply floordiv_inr in Eq. destruct Eq as [Hnz ->].
  pose proof (build_grid_length _ _ _ _ Eg) as Hl. rewrite Hl in *.
  assert (Hrc : (1 <= rows)%Z /\ (1 <= cols)%Z) by nia.
  destruct Hrc as [Hrows Hcols].
  replace (Z.of_nat (Z.to_nat cols * Z.to_nat rows)) with (rows * cols)%Z by nia.
  rewrite <- Hr. repeat split; assumption.
Qed.

(** The cells of a grid over a non-empty column: each lies in the bounding
    box, and no point is within two of them. *)
Lemma grid_cells (g : list point) (rows cols : Z) (polygons : list polygon) :
  g <> [] -> (1 <= rows)%Z -> (1 <= cols)%Z ->
  build_grid g rows cols = inr polygons ->
  exists minx miny maxx maxy,
    total_bounds g = (Some minx, Some miny, Some maxx, Some maxy) /\
    (forall pt q, In q polygons -> within pt q = true ->
       minx < px pt /\ px pt < maxx /\ miny < py pt /\ py pt < maxy) /\
    (forall pt i j d, (i < List.length polygons)%nat -> (j < List.length polygons)%nat ->
       within pt (nth i polygons d) = true -> within pt (nth j polygons d) = true ->
       i = j).
Proof.
  intros Hg Hr Hc Hb.
  destruct (total_bounds_box g Hg) as (minx & miny & maxx & maxy & Ht & Hx & Hy & _).
  exists minx, miny, maxx, maxy. split; [exact Ht|].
  rewrite (build_grid_ticks g rows cols minx miny maxx maxy Ht Hr Hc) in Hb.
  inversion Hb; subst polygons. clear Hb. split.
  - intros pt q Hq W.
    destruct (In_nth _ _ (Polygon NaN NaN NaN NaN) Hq) as (i & Hi & E).
    rewrite <- E in W.
    destruct (polygons_index minx miny maxx maxy rows cols Hr Hc i Hi)
      as (c & r & Hcc & Hrr & ->).
    rewrite polygons_nth in W by assumption.
    apply within_cell in W. destruct W as (X1 & X2 & Y1 & Y2).
    destruct (cell_in_box minx miny maxx maxy rows cols Hx Hy Hr Hc c r Hcc Hrr)
      as (B1 & B2 & B3 & B4).
    repeat split; lra.
  - intros pt i j d Hi Hj Wi Wj.
    destruct (polygons_index minx miny maxx maxy rows cols Hr Hc i Hi)
      as (c & r & Hcc & Hrr & ->).
    destruct (polygons_index minx miny maxx maxy rows cols Hr Hc j Hj)
      as (c' & r' & Hcc' & Hrr' & ->).
    rewrite polygons_nth in Wi, Wj by assumption.
    destruct (within_unique minx miny maxx maxy rows cols Hx Hy Hr Hc pt c r c' r')
      as [-> ->]; auto.
Qed.

Local Close Scope Q_scope.

Lemma exclusive_tail (p : polygon) (ps : list polygon) :
  exclusive (p :: ps) ->
  exclusive ps /\ forall pt q, In q ps -> within pt p = true -> within pt q = false.
Proof.
  intros H. split.
  - intros pt i j d Hi Hj Wi Wj.
    assert (S i = S j); [|lia].
    apply (H pt (S i) (S j) d); simpl; try lia; assumption.
  - intros pt q Hq W. destruct (within pt q) eqn:Wq; [|reflexivity].
    destruct (In_nth _ _ p Hq) as (j & Hj & E).
    assert (0 = S j)%nat; [|lia].
    apply (H pt 0%nat (S j) p); simpl; try lia; [assumption | now rewrite E].
Qed.

(** The cells of exclusive polygons share no record. *)
Lemma cells_distinct (polygons : list polygon) (gdf_rows : list row) :
  exclusive polygons -> NoDup (map label gdf_rows) ->
  NoDup (map label (List.concat (map (cell_rows gdf_rows) polygons))).
Proof.
  intros Hex Hnd. induction polygons as [|p ps IH]; simpl; [constructor|].
  destruct (exclusive_tail p ps Hex) as [Hex' Hp].
  rewrite map_app. apply NoDup_app.
  - unfold cell_rows.
    assert (G : forall l : list row, NoDup (map label l) ->
                NoDup (map label (filter (fun r => within (geometry r) p) l))).
    { induction l as [|h t IHl]; simpl; intros Hl; [constructor|].
      inversion Hl as [|? ? Hnot Hl']; subst.
      destruct (within (geometry h) p); simpl; [|now apply IHl].
      constructor; [|now apply IHl]. intros Hin. apply Hnot.
      apply in_map_iff in Hin. destruct Hin as (r & E & Hr).
      apply filter_In in Hr. rewrite <- E. apply in_map. tauto. }
    now apply G.
  - now apply IH.
  - intros x Hx Hx'.
    apply in_map_iff in Hx. destruct Hx as (r & <- & Hr).
    apply in_map_iff in Hx'. destruct Hx' as (r' & E & Hr').
    unfold cell_rows in Hr. apply filter_In in Hr. destruct Hr as [Hr W].
    apply in_concat in Hr'. destruct Hr' as (df & Hdf & Hr').
    apply in_map_iff in Hdf. destruct Hdf as (q & <- & Hq).
    unfold cell_rows in Hr'. apply filter_In in Hr'. destruct Hr' as [Hr' W'].
    assert (r' = r) by (eapply labels_injective; eassumption). subst r'.
    rewrite (Hp _ q Hq W) in W'. discriminate.
Qed.

Lemma concat_sampled_cells (polygons : list polygon) (gdf_rows : list row) :
  List.concat (sampled_cells polygons gdf_rows)
  = List.concat (map (cell_rows gdf_rows) polygons).
Proof.
  unfold sampled_cells. induction polygons as [|p ps IH]; simpl; [reflexivity|].
  destruct (cell_rows gdf_rows p) as [|r0 df0]; simpl; [exact IH | now rewrite IH].
Qed.

Lemma sampled_cells_within (polygons : list polygon) (gdf_rows : list row) (r : row) :
  In r (List.concat (sampled_cells polygons gdf_rows)) ->
  In r gdf_rows /\ exists p, In p polygons /\ within (geometry r) p = true.
Proof.
  rewrite concat_sampled_cells. intros H. apply in_concat in H.
  destruct H as (df & Hdf & Hr). apply in_map_iff in Hdf.
  destruct Hdf as (p & <- & Hp). unfold cell_rows in Hr. apply filter_In in Hr.
  split; [tauto|]. exists p. tauto.
Qed.

(** ** The strata of a call, in both modes *)

Lemma in_combine_map {A B : Type} (f : A -> B) (l : list A) (x : A * B) :
  In x (combine l (map f l)) -> In (fst x) l /\ snd x = f (fst x).
Proof.
  induction l as [|a t IH]; simpl; [tauto|].
  intros [<-|H]; [split; [now left | reflexivity]|].
  destruct (IH H). split; [now right | assumption].
Qed.

(** In value mode every record carries a label in [[0, bins)]. *)
Lemma value_labels_in_range input target_field bins fields_to_keep output_samples
    gdf_out n gb :
  value_strata input target_field bins fields_to_keep output_samples
  = inr (gdf_out, n, gb) ->
  let target := map (fun r => value r target_field) (records input) in
  let edges := edges_of (Numpy.unique target) bins in
  forall rl, In rl (combine (records input) (map (label_of edges) target)) ->
    exists b, snd rl = Some b /\ (0 <= b < bins)%Z.
Proof.
  intros H target edges rl Hrl.
  destruct (value_strata_inr _ _ _ _ _ _ _ _ H) as (_ & Hb & _ & H2 & _ & _).
  unfold target in Hrl. rewrite map_map in Hrl.
  apply in_combine_map in Hrl. destruct Hrl as [Hin ->].
  apply label_of_target; try assumption.
  apply in_map_iff. now exists (fst rl).
Qed.

(** The groups of the value mode hold every record of the dataset once. *)
Lemma value_strata_partition input target_field bins fields_to_keep output_samples
    gdf_out n gb :
  value_strata input target_field bins fields_to_keep output_samples
  = inr (gdf_out, n, gb) ->
  Permutation (List.concat (map snd gb)) (records input) /\
  StronglySorted Z.lt (map fst gb) /\
  Forall (fun k => (0 <= k < bins)%Z) (map fst gb).
Proof.
  intros H. pose proof (value_labels_in_range _ _ _ _ _ _ _ _ H) as Hl.
  destruct (value_strata_inr _ _ _ _ _ _ _ _ H) as (_ & Hb & _ & H2 & _ & ->).
  cbv zeta in Hl. split; [|split].
  - rewrite groupby_partition.
    + rewrite map_map, combine_map_fst. reflexivity.
    + intros rl Hrl. destruct (Hl rl Hrl) as (b & -> & _). discriminate.
  - rewrite groupby_keys. apply group_keys_sorted.
  - rewrite groupby_keys. apply Forall_forall. intros k Hk.
    apply group_keys_In in Hk. apply in_map_iff in Hk.
    destruct Hk as (rl & E & Hrl). destruct (Hl rl Hrl) as (b & E' & Hr).
    congruence.
Qed.

Lemma filter_length_le {A : Type} (p : A -> bool) (l : list A) :
  (List.length (filter p l) <= List.length l)%nat.
Proof. induction l as [|h t IH]; simpl; [lia|]. destruct (p h); simpl; lia. Qed.

(** There are at most as many non-empty strata as declared bins or cells. *)
Lemma strata_count (m : mode) input fields_to_keep output_samples gdf_out n groups :
  strata m input fields_to_keep output_samples = inr (gdf_out, n, groups) ->
  (1 <= declared_count m)%Z /\
  (Z.of_nat (List.length groups) <= declared_count m)%Z.
Proof.
  destruct m as [target_field bins|rows cols]; simpl.
  - destruct (value_strata _ _ _ _ _) as [e|[[g0 n0] gb]] eqn:Es; [discriminate|].
    intros [= <- <- <-].
    destruct (value_strata_inr _ _ _ _ _ _ _ _ Es) as (_ & Hb & _).
    destruct (value_strata_partition _ _ _ _ _ _ _ _ Es) as (_ & Hs & Hr).
    split; [assumption|]. rewrite length_map, <- (length_map fst).
    pose proof (sorted_Z_range_length (map fst gb) 0 bins Hs) as L.
    rewrite Forall_forall in Hr. specialize (L ltac:(intros x Hx; specialize (Hr x Hx); lia)).
    lia.
  - destruct (spatial_strata _ _ _ _ _) as [e|[[g0 n0] polygons]] eqn:Es; [discriminate|].
    intros [= <- <- <-].
    destruct (spatial_strata_inr _ _ _ _ _ _ _ _ Es) as (_ & Hr & Hc & _ & Eg).
    apply build_grid_length in Eg. split; [nia|].
    unfold sampled_cells.
    pose proof (filter_length_le (fun df : list row => negb (is_empty df))
                  (map (cell_rows (records g0)) polygons)) as L.
    rewrite length_map in L. nia.
Qed.

Lemma NoDup_concat_each {A : Type} (ls : list (list A)) (l : list A) :
  NoDup (List.concat ls) -> In l ls -> NoDup l.
Proof.
  induction ls as [|h t IH]; simpl; intros H Hin; [destruct Hin|].
  apply NoDup_app_inv in H. destruct H as (Hh & Ht & _).
  destruct Hin as [<-|Hin]; [assumption | now apply IH].
Qed.

Lemma cells_no_record (polygons : list polygon) :
  List.concat (map (cell_rows []) polygons) = [].
Proof. induction polygons; simpl; auto. Qed.

(** Strata of a dataset with distinct index labels share no record. *)
Lemma strata_distinct (m : mode) input fields_to_keep output_samples gdf_out n groups :
  strata m input fields_to_keep output_samples = inr (gdf_out, n, groups) ->
  NoDup (map label (records input)) ->
  NoDup (map label (List.concat groups)).
Proof.
  destruct m as [target_field bins|rows cols]; simpl.
  - destruct (value_strata _ _ _ _ _) as [e|[[g0 n0] gb]] eqn:Es; [discriminate|].
    intros [= <- <- <-] Hnd.
    destruct (value_strata_partition _ _ _ _ _ _ _ _ Es) as (Hp & _).
    eapply Permutation_NoDup; [|exact Hnd].
    apply Permutation_map. now symmetry.
  - destruct (spatial_strata _ _ _ _ _) as [e|[[g0 n0] polygons]] eqn:Es; [discriminate|].
    intros [= <- <- <-] Hnd.
    destruct (spatial_strata_inr _ _ _ _ _ _ _ _ Es) as (Ef & Hr & Hc & _ & Eg).
    destruct (filter_fields_records _ _ _ Ef) as [Hrec _]. rewrite Hrec.
    rewrite concat_sampled_cells.
    destruct (records input) as [|r0 rest] eqn:Er.
    { rewrite cells_no_record. constructor. }
    rewrite <- Er in *. apply cells_distinct; [|assumption].
    destruct (grid_cells (map geometry (records input)) rows cols polygons)
      as (minx & miny & maxx & maxy & _ & _ & Hex); try assumption.
    rewrite Er. discriminate.
Qed.

(** ** Draws without replacement, loop by loop *)

Lemma sample_groups_distinct (gb : list (Z * list row)) (n : Z) (w w' : world)
    (dfs : list (list row)) :
  Forall (fun g => snd g <> [] /\ NoDup (map label (snd g))) gb ->
  sample_groups gb n false w = (inr dfs, w') ->
  Forall2 (fun s d => incl d s /\ NoDup (map label d)) (map snd gb) dfs.
Proof.
  intros Hg. revert w dfs. induction Hg as [|[k gr] rest [Hne Hnd] Hrest IH]; intros w dfs H.
  - simpl in H. inversion H; subst. constructor.
  - simpl in H. unfold bind, ret in H.
    destruct (DataFrame.sample gr n false w) as [[e|d] w1] eqn:E1; [discriminate|].
    destruct (sample_groups rest n false w1) as [[e|ds] w2] eqn:E2; [discriminate|].
    inversion H; subst. simpl. constructor; [|eapply IH; eassumption].
    split; [eapply sample_inr; eassumption | eapply sample_distinct; eassumption].
Qed.

Lemma sample_cells_distinct (polygons : list polygon) (gdf_rows : list row) (n : Z)
    (w w' : world) (dfs : list (list row)) :
  NoDup (map label gdf_rows) ->
  sample_cells polygons gdf_rows n false w = (inr dfs, w') ->
  Forall2 (fun s d => incl d s /\ NoDup (map label d)) (sampled_cells polygons gdf_rows) dfs.
Proof.
  intros Hnd. revert w dfs. induction polygons as [|p rest IH]; intros w dfs H.
  - simpl in H. inversion H; subst. constructor.
  - simpl in H. unfold sampled_cells. simpl. fold (cell_rows gdf_rows p) in *.
    assert (Hc : NoDup (map label (cell_rows gdf_rows p))).
    { unfold cell_rows. clear H IH. induction gdf_rows as [|h t IHl]; simpl; [constructor|].
      inversion Hnd as [|? ? Hnot Hl']; subst.
      destruct (within (geometry h) p); simpl; [|now apply IHl].
      constructor; [|now apply IHl]. intros Hin. apply Hnot.
      apply in_map_iff in Hin. destruct Hin as (r & E & Hr).
      apply filter_In in Hr. rewrite <- E. apply in_map. tauto. }
    destruct (cell_rows gdf_rows p) as [|r0 df0] eqn:Ecell.
    + simpl. unfold bind, log_info in H. simpl in H. eapply IH; eassumption.
    + simpl. unfold bind, ret in H.
      destruct (DataFrame.sample (r0 :: df0) n false w) as [[e|d] w1] eqn:E1;
        [discriminate|].
      destruct (sample_cells rest gdf_rows n false w1) as [[e|ds] w2] eqn:E2;
        [discriminate|].
      inversion H; subst. constructor; [|eapply IH; eassumption].
      split; [eapply sample_inr; [discriminate | eassumption]
             | eapply sample_distinct; eassumption].
Qed.

Lemma total_samples_of_filtered (fields_to_keep : list string) (input gdf_out : GeoDataFrame)
    (output_samples : option Z) :
  filter_fields fields_to_keep input = inr gdf_out ->
  total_samples_of output_samples gdf_out = total_samples_of output_samples input.
Proof.
  intros H. destruct (filter_fields_records _ _ _ H) as [Hr _].
  unfold total_samples_of. now rewrite Hr.
Qed.

Lemma Forall2_In_left {A B : Type} (P : A -> B -> Prop) (l : list A) (l' : list B) (x : A) :
  Forall2 P l l' -> In x l -> exists y, In y l' /\ P x y.
Proof.
  induction 1 as [|a b l l' Hab F IH]; intros Hx; [destruct Hx|].
  destruct Hx as [<-|Hx]; [exists b; split; [now left | assumption]|].
  destruct (IH Hx) as (y & Hy & Py). exists y. split; [now right | assumption].
Qed.

Lemma written_In (m : mode) (draws : list (list row)) (r : row) :
  In r (written m draws) <-> In r (List.concat draws).
Proof.
  destruct m; simpl; [|reflexivity]. split; intros H.
  - eapply Permutation_in; [apply sort_index_perm | exact H].
  - eapply Permutation_in; [symmetry; apply sort_index_perm | exact H].
Qed.

(** The quota of a call that returns is not negative. *)
Lemma quota_nonnegative (n : Z) (replace : bool) (groups draws : list (list row)) :
  Forall2 (drawn n replace) groups draws -> draws <> [] -> (0 <= n)%Z.
Proof.
  intros F Hne. destruct F as [|s d ss ds [Hd _] _]; [congruence | lia].
Qed.

(** X3.  A call that returns never writes more records than were asked
    for: at most [output_samples], or the size of the input when that is
    unset or 0. *)
Theorem output_within_request (m : mode) (input : GeoDataFrame)
    (fields_to_keep : list string) (replace : bool) (output_samples : option Z)
    (w w' : world) (out : GeoDataFrame) :
  resample m input fields_to_keep replace output_samples w = (inr out, w') ->
  (Z.of_nat (List.length (records out)) <= total_samples_of output_samples input)%Z.
Proof.
  intros H.
  destruct (resample_inr _ _ _ _ _ _ _ _ H)
    as (gdf_out & n & groups & draws & Hs & F & Hne & Hw).
  destruct (strata_inr _ _ _ _ _ _ _ Hs) as (Ef & _ & Hn & _).
  destruct (strata_count _ _ _ _ _ _ _ Hs) as [Hc Hg].
  pose proof (quota_nonnegative _ _ _ _ F Hne) as Hq.
  rewrite (total_samples_of_filtered _ _ _ _ Ef) in Hn.
  rewrite Hw, written_length, (Forall2_lengths _ _ _ _ F).
  pose proof (Z.mul_div_le (total_samples_of output_samples input) (declared_count m)
                ltac:(lia)) as Hm.
  subst n. nia.
Qed.

Lemma output_within_request_witness :
  (Z.of_nat (List.length
     (records (frame_of (resample (Spatial 2 2) square_sites [] true (Some 7%Z)
                                  (fresh generator_a))))) <= 7)%Z.
Proof.
  pose (r := resample (Spatial 2 2) square_sites [] true (Some 7%Z) (fresh generator_a)).
  assert (H : r = (inr (frame_of r), snd r)) by (vm_compute; reflexivity).
  exact (output_within_request _ _ _ _ _ _ _ _ H).
Defined.

(** X4.  Sampling without replacement never writes a record twice: when
    the index labels of the input are distinct, so are those of the
    output, in both modes. *)
Theorem without_replacement_no_duplicates (m : mode) (input : GeoDataFrame)
    (fields_to_keep : list string) (output_samples : option Z)
    (w w' : world) (out : GeoDataFrame) :
  resample m input fields_to_keep false output_samples w = (inr out, w') ->
  NoDup (map label (records input)) ->
  NoDup (map label (records out)).
Proof.
  intros H Hnd.
  assert (G : exists gdf_out n groups draws,
             strata m input fields_to_keep output_samples = inr (gdf_out, n, groups) /\
             Forall2 (fun s d => incl d s /\ NoDup (map label d)) groups draws /\
             records out = written m draws).
  { destruct m as [target_field bins|rows cols]; simpl in *.
    - rewrite resample_shapefile_stages in H.
      destruct (value_strata _ _ _ _ _) as [e|[[gdf_out n] gb]] eqn:Es; [discriminate|].
      destruct (sample_groups gb n false w) as [[e|dfs] w1] eqn:El; [discriminate|].
      destruct (DataFrame.concat dfs) as [e|final] eqn:Ec; [discriminate|].
      inversion H; subst. apply (concat_inr dfs dfs) in Ec. destruct Ec as [_ ->].
      exists gdf_out, n, (map snd gb), dfs. split; [reflexivity|]. split; [|reflexivity].
      apply (sample_groups_distinct gb n w w'); [|assumption].
      pose proof (strata_distinct (Value target_field bins) input fields_to_keep
                    output_samples gdf_out n (map snd gb)) as D.
      simpl in D. rewrite Es in D. specialize (D eq_refl Hnd).
      pose proof (strata_value_groups _ _ _ _ _ _ _ _ Es) as Hg.
      rewrite Forall_forall in *. intros g Hin. split; [now apply Hg|].
      assert (Hm : NoDup (List.concat (map (map label) (map snd gb)))).
      { now rewrite <- concat_map. }
      apply (NoDup_concat_each _ _ Hm). now apply in_map, in_map.
    - rewrite resample_shapefile_spatially_stages in H.
      destruct (spatial_strata _ _ _ _ _) as [e|[[gdf_out n] polygons]] eqn:Es;
        [discriminate|].
      destruct (sample_cells polygons _ n false w) as [[e|dfs] w1] eqn:El; [discriminate|].
      destruct (DataFrame.concat dfs) as [e|final] eqn:Ec; [discriminate|].
      inversion H; subst. apply (concat_inr dfs dfs) in Ec. destruct Ec as [_ ->].
      exists gdf_out, n, (sampled_cells polygons (records gdf_out)), dfs.
      split; [reflexivity|]. split; [|reflexivity].
      apply (sample_cells_distinct polygons (records gdf_out) n w w'); [|assumption].
      destruct (spatial_strata_inr _ _ _ _ _ _ _ _ Es) as (Ef & _).
      destruct (filter_fields_records _ _ _ Ef) as [-> _]. assumption. }
  destruct G as (gdf_out & n & groups & draws & Hs & F & Hw).
  pose proof (strata_distinct _ _ _ _ _ _ _ Hs Hnd) as D.
  pose proof (draws_distinct _ _ D F) as Dd.
  rewrite Hw. destruct m; simpl; [|assumption].
  eapply Permutation_NoDup; [|exact Dd].
  apply Permutation_map. symmetry. apply sort_index_perm.
Qed.

Lemma without_replacement_no_duplicates_witness :
  NoDup (map label
           (records (frame_of (resample (Value uranium 4) forty_sites [uranium] false
                                        (Some 20%Z) (fresh generator_b))))).
Proof.
  pose (r := resample (Value uranium 4) forty_sites [uranium] false (Some 20%Z)
                      (fresh generator_b)).
  assert (H : r = (inr (frame_of r), snd r)) by (vm_compute; reflexivity).
  apply (without_replacement_no_duplicates _ _ _ _ _ _ _ H).
  vm_compute. exact (seq_NoDup 40 0).
Defined.

(** X5.  When the quota is at least 1, every bin or cell that holds a
    record contributes a record of its own to the output. *)
Theorem every_stratum_represented (m : mode) (input : GeoDataFrame)
    (fields_to_keep : list string) (replace : bool) (output_samples : option Z)
    (w w' : world) (out gdf_out : GeoDataFrame) (n : Z) (groups : list (list row)) :
  resample m input fields_to_keep replace output_samples w = (inr out, w') ->
  strata m input fields_to_keep output_samples = inr (gdf_out, n, groups) ->
  (1 <= n)%Z ->
  forall s, In s groups -> exists r, In r (records out) /\ In r s.
Proof.
  intros H Hs Hn s Hin.
  destruct (resample_inr _ _ _ _ _ _ _ _ H)
    as (g' & n' & groups' & draws & Hs' & F & _ & Hw).
  rewrite Hs in Hs'. inversion Hs'; subst g' n' groups'. clear Hs'.
  destruct (Forall2_In_left _ _ _ _ F Hin) as (d & Hd & Hl & Hi & _).
  destruct d as [|r d']; [simpl in Hl; lia|].
  exists r. split; [|apply Hi; now left].
  rewrite Hw. apply written_In. apply in_concat. exists (r :: d').
  split; [assumption | now left].
Qed.

Lemma every_stratum_represented_witness :
  exists r,
    In r (records (frame_of (resample (Value uranium 2) four_sites [uranium] true
                                      (Some 3%Z) (fresh generator_a)))) /\
    In r (skipn 2 (records four_sites)).
Proof.
  pose (r := resample (Value uranium 2) four_sites [uranium] true (Some 3%Z)
                      (fresh generator_a)).
  assert (H : r = (inr (frame_of r), snd r)) by (vm_compute; reflexivity).
  apply (every_stratum_represented _ _ _ _ _ _ _ _ four_sites 1%Z
           [firstn 2 (records four_sites); skipn 2 (records four_sites)] H).
  - vm_compute. reflexivity.
  - lia.
  - right. left. reflexivity.
Defined.

Lemma inside_bounds_within (g : list point) (rows cols : Z) (polygons : list polygon)
    (pt : point) (q : polygon) :
  g <> [] -> (1 <= rows)%Z -> (1 <= cols)%Z ->
  build_grid g rows cols = inr polygons ->
  In q polygons -> within pt q = true ->
  inside_bounds g pt = true.
Proof.
  intros Hg Hr Hc Hb Hq W.
  destruct (grid_cells g rows cols polygons Hg Hr Hc Hb)
    as (minx & miny & maxx & maxy & Ht & Hin & _).
  destruct (Hin pt q Hq W) as (A & B & C & D).
  unfold inside_bounds. rewrite Ht.
  rewrite !andb_true_iff, !Qltb_spec. tauto.
Qed.

(** The records a spatial call can draw lie strictly inside the bounding box. *)
Lemma spatial_groups_inside input rows cols fields_to_keep output_samples gdf_out n
    (groups : list (list row)) :
  strata (Spatial rows cols) input fields_to_keep output_samples
  = inr (gdf_out, n, groups) ->
  forall r, In r (List.concat groups) ->
    In r (records input) /\
    inside_bounds (map geometry (records input)) (geometry r) = true.
Proof.
  simpl. destruct (spatial_strata _ _ _ _ _) as [e|[[g0 n0] polygons]] eqn:Es;
    [discriminate|].
  intros [= <- <- <-] r Hr.
  destruct (spatial_strata_inr _ _ _ _ _ _ _ _ Es) as (Ef & H1 & H2 & _ & Hb).
  destruct (filter_fields_records _ _ _ Ef) as [Er _]. rewrite Er in Hr.
  apply sampled_cells_within in Hr. destruct Hr as (Hin & p & Hp & W).
  split; [assumption|].
  apply (inside_bounds_within _ rows cols polygons _ p); try assumption.
  intros E. apply map_eq_nil in E. rewrite E in Hin. destruct Hin.
Qed.

Lemma concat_draws_incl (n : Z) (replace : bool) (groups draws : list (list row)) :
  Forall2 (drawn n replace) groups draws ->
  incl (List.concat draws) (List.concat groups).
Proof.
  induction 1 as [|s d ss ds (_ & Hi & _) F IH]; simpl; [apply incl_refl|].
  intros x Hx. apply in_app_or in Hx. apply in_or_app.
  destruct Hx as [Hx|Hx]; [left; now apply Hi | right; now apply IH].
Qed.

(** X6.  Spatial mode only ever writes records that lie strictly inside the
    bounding box of the dataset: a record on the boundary of the box, such
    as the westernmost one, is within no cell and is never sampled. *)
Theorem spatial_output_inside_bounds (input : GeoDataFrame) (rows cols : Z)
    (fields_to_keep : list string) (replace : bool) (output_samples : option Z)
    (w w' : world) (out : GeoDataFrame) :
  resample_shapefile_spatially input rows cols fields_to_keep replace output_samples w
  = (inr out, w') ->
  forall r, In r (records out) ->
    In r (records input) /\
    inside_bounds (map geometry (records input)) (geometry r) = true.
Proof.
  intros H r Hr.
  destruct (resample_inr (Spatial rows cols) _ _ _ _ _ _ _ H)
    as (gdf_out & n & groups & draws & Hs & F & _ & Hw).
  rewrite Hw in Hr. simpl in Hr.
  apply (spatial_groups_inside _ _ _ _ _ _ _ _ Hs).
  now apply (concat_draws_incl _ _ _ _ F).
Qed.

Lemma spatial_output_inside_bounds_witness :
  forallb (fun r => inside_bounds (map geometry (records square_sites)) (geometry r))
    (records (frame_of (resample_shapefile_spatially square_sites 2 2 [] true (Some 8%Z)
                          (fresh generator_a)))) = true /\
  forallb (fun r => inside_bounds (map geometry (records square_sites)) (geometry r))
    (records square_sites) = false.
Proof.
  pose (r := resample_shapefile_spatially square_sites 2 2 [] true (Some 8%Z)
               (fresh generator_a)).
  assert (H : r = (inr (frame_of r), snd r)) by (vm_compute; reflexivity).
  split; [|vm_compute; reflexivity].
  apply forallb_forall. intros x Hx.
  exact (proj2 (spatial_output_inside_bounds _ _ _ _ _ _ _ _ _ H x Hx)).
Defined.

(** X7.  A spatial call on a dataset none of whose records lies strictly
    inside its bounding box (a single record, two records, records on one
    line, the corners of a rectangle) raises: every cell is empty and there
    is nothing to concatenate. *)
Theorem spatial_needs_interior_record (input : GeoDataFrame) (rows cols : Z)
    (fields_to_keep : list string) (replace : bool) (output_samples : option Z)
    (w : world) :
  (forall r, In r (records input) ->
     inside_bounds (map geometry (records input)) (geometry r) = false) ->
  exists e w',
    resample_shapefile_spatially input rows cols fields_to_keep replace output_samples w
    = (inl e, w').
Proof.
  intros Hout.
  destruct (resample_shapefile_spatially input rows cols fields_to_keep replace
              output_samples w) as [[e|out] w'] eqn:H; [now exists e, w'|].
  exfalso.
  destruct (resample_inr (Spatial rows cols) _ _ _ _ _ _ _ H)
    as (gdf_out & n & groups & draws & Hs & F & Hne & _).
  destruct F as [|s d ss ds _ _]; [congruence|].
  pose proof Hs as Hs'. simpl in Hs'.
  destruct (spatial_strata _ _ _ _ _) as [e|[[g0 n0] polygons]]; [discriminate|].
  injection Hs' as _ _ Eg.
  pose proof (sampled_cells_nonempty polygons (records g0)) as Fn.
  rewrite Eg in Fn. inversion Fn as [|? ? [Hs0 _] _]; subst.
  destruct s as [|r s']; [congruence|].
  destruct (spatial_groups_inside _ _ _ _ _ _ _ _ Hs r) as [Hin Hi].
  { simpl. now left. }
  rewrite (Hout r Hin) in Hi. discriminate.
Qed.

Lemma spatial_needs_interior_record_witness :
  exists e w',
    resample_shapefile_spatially two_sites 3 3 [] true None (fresh generator_a)
    = (inl e, w').
Proof.
  apply (spatial_needs_interior_record two_sites 3 3 [] true None (fresh generator_a)).
  intros r Hr. vm_compute in Hr.
  repeat (destruct Hr as [<-|Hr]; [vm_compute; reflexivity|]). destruct Hr.
Defined.



(** X9.  A negative [output_samples] makes every call raise, in both modes
    and with either setting of [replace]: the quota is negative and the
    first draw (or an earlier step) fails. *)
Theorem negative_output_samples_fails (m : mode) (input : GeoDataFrame)
    (fields_to_keep : list string) (replace : bool) (k : Z) (w : world) :
  (k < 0)%Z ->
  exists e w', resample m input fields_to_keep replace (Some k) w = (inl e, w').
Proof.
  intros Hk.
  destruct (resample m input fields_to_keep replace (Some k) w) as [[e|out] w'] eqn:H;
    [now exists e, w'|].
  exfalso.
  destruct (resample_inr _ _ _ _ _ _ _ _ H)
    as (gdf_out & n & groups & draws & Hs & F & Hne & _).
  destruct (strata_inr _ _ _ _ _ _ _ Hs) as (_ & _ & Hn & _).
  destruct (strata_count _ _ _ _ _ _ _ Hs) as [Hc _].
  pose proof (quota_nonnegative _ _ _ _ F Hne) as Hq.
  assert (T : total_samples_of (Some k) gdf_out = k).
  { unfold total_samples_of. destruct (Z.eqb_spec k 0); [lia | reflexivity]. }
  rewrite T in Hn.
  assert (k / declared_count m < 0)%Z by (apply Z.div_lt_upper_bound; lia).
  lia.
Qed.

Lemma negative_output_samples_fails_witness :
  exists e w',
    resample (Value uranium 2) four_sites [uranium] true (Some (-1)%Z) (fresh generator_a)
    = (inl e, w').
Proof.
  apply (negative_output_samples_fails (Value uranium 2) four_sites [uranium] true (-1)%Z
           (fresh generator_a)).
  lia.
Defined.

(** X10.  When fewer records are asked for than there are bins or cells
    declared, the quota is 0: a call that returns hands [to_file] a frame
    without any record. *)
Theorem request_below_count_gives_no_record (m : mode) (input : GeoDataFrame)
    (fields_to_keep : list string) (replace : bool) (output_samples : option Z)
    (w w' : world) (out : GeoDataFrame) :
  resample m input fields_to_keep replace output_samples w = (inr out, w') ->
  (total_samples_of output_samples input < declared_count m)%Z ->
  records out = [].
Proof.
  intros H Hlt.
  destruct (resample_inr _ _ _ _ _ _ _ _ H)
    as (gdf_out & n & groups & draws & Hs & F & Hne & Hw).
  destruct (strata_inr _ _ _ _ _ _ _ Hs) as (Ef & _ & Hn & _).
  destruct (strata_count _ _ _ _ _ _ _ Hs) as [Hc _].
  pose proof (quota_nonnegative _ _ _ _ F Hne) as Hq.
  rewrite (total_samples_of_filtered _ _ _ _ Ef) in Hn.
  assert (n < 1)%Z by (subst n; apply Z.div_lt_upper_bound; lia).
  apply length_zero_iff_nil.
  rewrite Hw. apply Nat2Z.inj.
  rewrite written_length, (Forall2_lengths _ _ _ _ F). nia.
Qed.

Lemma request_below_count_gives_no_record_witness :
  records (frame_of (resample (Value uranium 4) forty_sites [uranium] true (Some 3%Z)
                              (fresh generator_a))) = [].
Proof.
  pose (r := resample (Value uranium 4) forty_sites [uranium] true (Some 3%Z)
                      (fresh generator_a)).
  assert (H : r = (inr (frame_of r), snd r)) by (vm_compute; reflexivity).
  apply (request_below_count_gives_no_record _ _ _ _ _ _ _ _ H).
  vm_compute. reflexivity.
Defined.

(** X11.  The columns of the output are the geometry column followed by
    the kept fields in the order given; value mode removes every column
    named [bin], a kept field of that name included. *)
Theorem output_columns (m : mode) (input : GeoDataFrame)
    (fields_to_keep : list string) (replace : bool) (output_samples : option Z)
    (w w' : world) (out : GeoDataFrame) :
  resample m input fields_to_keep replace output_samples w = (inr out, w') ->
  columns out = match m with
                | Value _ _ => drop_bin (GEOMETRY :: fields_to_keep)
                | Spatial _ _ => GEOMETRY :: fields_to_keep
                end.
Proof.
  destruct m as [target_field bins|rows cols]; simpl; intros H.
  - rewrite resample_shapefile_stages in H.
    destruct (value_strata _ _ _ _ _) as [e|[[gdf_out n] gb]] eqn:Es; [discriminate|].
    destruct (value_strata_inr _ _ _ _ _ _ _ _ Es) as (Ef & _).
    destruct (filter_fields_records _ _ _ Ef) as [_ Hc].
    destruct (sample_groups gb n replace w) as [[e|dfs] w1]; [discriminate|].
    destruct (DataFrame.concat dfs); [discriminate|].
    inversion H; subst. simpl. now rewrite Hc.
  - rewrite resample_shapefile_spatially_stages in H.
    destruct (spatial_strata _ _ _ _ _) as [e|[[gdf_out n] polygons]] eqn:Es;
      [discriminate|].
    destruct (spatial_strata_inr _ _ _ _ _ _ _ _ Es) as (Ef & _).
    destruct (filter_fields_records _ _ _ Ef) as [_ Hc].
    destruct (sample_cells polygons _ n replace w) as [[e|dfs] w1]; [discriminate|].
    destruct (DataFrame.concat dfs); [discriminate|].
    inversion H; subst. simpl. now rewrite Hc.
Qed.

Lemma output_columns_witness :
  columns (frame_of (resample (Value uranium 2)
                       (Frame [GEOMETRY; uranium; BIN] (records four_sites))
                       [uranium; BIN] true None (fresh generator_a)))
  = [GEOMETRY; uranium].
Proof.
  pose (r := resample (Value uranium 2)
               (Frame [GEOMETRY; uranium; BIN] (records four_sites))
               [uranium; BIN] true None (fresh generator_a)).
  assert (H : r = (inr (frame_of r), snd r)) by (vm_compute; reflexivity).
  exact (output_columns _ _ _ _ _ _ _ _ H).
Defined.





Local Open Scope Q_scope.



(** ** Pixel centres *)




Lemma lonlat_pixel_centres_cases (raster : DatasetReader) :
  let T := affine raster in
  (Affine.b T == 0 /\ Affine.d T == 0 /\
   lonlat_pixel_centres raster
   = ([], Returned
            (map (fun k => (Affine.a T * (1 # 2) + Affine.b T * (1 # 2) + Affine.c T)
                           + inject_Z k * (Affine.a T * 1 + Affine.b T * 0))
                 (arange (width raster)),
             map (fun k => (Affine.d T * (1 # 2) + Affine.e T * (1 # 2) + Affine.f T)
                           + inject_Z k * (Affine.d T * 0 + Affine.e T * 1))
                 (arange (height raster))))) \/
  (~ (Affine.b T == 0 /\ Affine.d T == 0) /\
   lonlat_pixel_centres raster = ([rotation_or_shear], SystemExit (-1)%Z)).
Proof.
  destruct raster as [[a b c d e f] w h]. cbn -[arange Qeq_bool].
  unfold lonlat_pixel_centres. cbn -[arange Qeq_bool].
  destruct (Qeq_bool (a * 0 + b * 1) 0) eqn:Eb; cbn -[arange Qeq_bool].
  - destruct (Qeq_bool (d * 1 + e * 0) 0) eqn:Ed; cbn -[arange Qeq_bool].
    + left. apply Qeq_bool_iff in Eb, Ed. repeat split; [lra | lra].
    + right. split; [|reflexivity]. intros [_ Hd].
      apply Qeq_bool_neq in Ed. apply Ed. lra.
  - right. split; [|reflexivity]. intros [Hb _].
    apply Qeq_bool_neq in Eb. apply Eb. lra.
Qed.



(** ** [validate_file] *)

Lemma critical_unless_consistent (cond : bool) (msg : string) (state : list string * bool) :
  In msg mismatches -> consistent state -> consistent (critical_unless cond msg state).
Proof.
  intros Hm [Hs Hi]. unfold critical_unless. destruct cond; [now split|].
  split; simpl.
  - split; [discriminate|]. intros H. now apply app_eq_nil in H.
  - apply incl_app; [assumption|]. intros x [<-|[]]. assumption.
Qed.

Lemma first_item_inr (x : list Q) (v : Q) : first_item x = inr v -> x <> [] /\ v = nth 0 x 0.
Proof. destruct x; [discriminate|]. intros [= <-]. split; [discriminate | reflexivity]. Qed.

Lemma first_item_nonempty (x : list Q) : x <> [] -> first_item x = inr (nth 0 x 0).
Proof. destruct x; [congruence | reflexivity]. Qed.

Lemma last_item_nonempty (x : list Q) : x <> [] -> last_item x = inr (last x 0).
Proof. destruct x; [congruence | reflexivity]. Qed.






(** What [validate_file] does once the reference vectors are not empty and
    the transform of the file has neither rotation nor shear. *)
Lemma validate_file_unfold (f : DatasetReader) (longitudes latitudes f_lons f_lats : list Q) :
  longitudes <> [] -> latitudes <> [] ->
  lonlat_pixel_centres f = ([], Returned (f_lons, f_lats)) ->
  f_lons <> [] -> f_lats <> [] ->
  validate_file f longitudes latitudes
  = let s := critical_unless (width f =? Z.of_nat (List.length longitudes))%Z
                             width_mismatch ([], true) in
    let s := critical_unless (height f =? Z.of_nat (List.length latitudes))%Z
                             height_mismatch s in
    let s := critical_unless (Qeq_bool (nth 0 longitudes 0) (nth 0 f_lons 0) &&
                              Qeq_bool (last longitudes 0) (last f_lons 0))
                             x_bounds_mismatch s in
    let s := critical_unless (Qeq_bool (nth 0 latitudes 0) (nth 0 f_lats 0) &&
                              Qeq_bool (last latitudes 0) (last f_lats 0))
                             y_bounds_mismatch s in
    let s := critical_unless (all_equal longitudes f_lons) longitudes_mismatch s in
    let s := critical_unless (all_equal latitudes f_lats) latitudes_mismatch s in
    (fst s, Returned (snd s)).
Proof.
  intros H1 H2 E H3 H4. unfold validate_file.
  rewrite (first_item_nonempty _ H1), (last_item_nonempty _ H1),
          (first_item_nonempty _ H2), (last_item_nonempty _ H2), E.
  rewrite (first_item_nonempty _ H3), (last_item_nonempty _ H3),
          (first_item_nonempty _ H4), (last_item_nonempty _ H4).
  cbv zeta. rewrite app_nil_r.
  destruct (critical_unless (height f =? _)%Z _ _) as [l v]. reflexivity.
Qed.

Lemma validate_file_returned (f : DatasetReader) (longitudes latitudes : list Q)
    (msgs : list string) (v : bool) :
  validate_file f longitudes latitudes = (msgs, Returned v) ->
  longitudes <> [] /\ latitudes <> [] /\
  exists f_lons f_lats,
    lonlat_pixel_centres f = ([], Returned (f_lons, f_lats)) /\
    f_lons <> [] /\ f_lats <> [].
Proof.
  unfold validate_file. intros H.
  destruct (first_item longitudes) as [|x0] eqn:E1; [discriminate|].
  destruct (last_item longitudes) as [|x1]; [discriminate|].
  destruct (first_item latitudes) as [|y0] eqn:E2; [discriminate|].
  destruct (last_item latitudes) as [|y1]; [discriminate|].
  apply first_item_inr in E1, E2.
  split; [tauto|]. split; [tauto|].
  destruct (lonlat_pixel_centres_cases f) as [(_ & _ & E)|(_ & E)];
    rewrite E in H; [|discriminate].
  rewrite E. do 2 eexists. split; [reflexivity|].
  match type of H with context [first_item ?l] =>
    destruct (first_item l) as [|u0] eqn:E3 end.
  { first [discriminate | destruct (last_item _); discriminate]. }
  destruct (last_item _) as [|u1]; [discriminate|].
  match type of H with context [first_item ?l] =>
    destruct (first_item l) as [|v0] eqn:E4 end.
  { first [discriminate | destruct (last_item _); discriminate]. }
  apply first_item_inr in E3, E4. tauto.
Qed.

(** X15.  Whenever [validate_file] returns, it returns True exactly when it
    logged nothing; every rejection comes with at least one of its six
    critical messages and with no other message. *)
Theorem validate_file_says_why (f : DatasetReader) (longitudes latitudes : list Q)
    (msgs : list string) (v : bool) :
  validate_file f longitudes latitudes = (msgs, Returned v) ->
  (v = true <-> msgs = []) /\ incl msgs mismatches.
Proof.
  intros H.
  destruct (validate_file_returned _ _ _ _ _ H)
    as (H1 & H2 & f_lons & f_lats & E & H3 & H4).
  rewrite (validate_file_unfold _ _ _ _ _ H1 H2 E H3 H4) in H. cbv zeta in H.
  match type of H with (fst ?s, _) = _ => assert (C : consistent s) end.
  { repeat (apply critical_unless_consistent; [simpl; tauto|]).
    split; [simpl; tauto | intros x []]. }
  injection H as <- <-. exact C.
Qed.

Lemma validate_file_says_why_witness :
  validate_file moved_tile [101; 103; 105; 107] [49 + (1 # 2); 48 + (1 # 2); 47 + (1 # 2)]
  = ([x_bounds_mismatch; longitudes_mismatch], Returned false) /\
  ((false = true <-> [x_bounds_mismatch; longitudes_mismatch] = []) /\
   incl [x_bounds_mismatch; longitudes_mismatch] mismatches).
Proof.
  assert (H : validate_file moved_tile [101; 103; 105; 107]
                [49 + (1 # 2); 48 + (1 # 2); 47 + (1 # 2)]
              = ([x_bounds_mismatch; longitudes_mismatch], Returned false)).
  { vm_compute. reflexivity. }
  split; [exact H|]. exact (validate_file_says_why _ _ _ _ _ H).
Defined.





Local Close Scope Q_scope.
